(** * ETL_UV: the transformation core of the delivery pipeline

    A shallow embedding of [src/test.py] (the library of pipeline
    steps) and of steps 5 to 7 of [src/main.py], followed by the
    properties of the column normalizer, the date parser, the
    reference resolver, the dimension extractor and the DDL builder.

    Text is modelled by [string] over 8-bit characters: the inputs of
    the pipeline are ASCII headers and cell texts.  pandas' missing
    markers (NaN, None, NaT) are one value, [NA], as [pd.isna],
    [drop_duplicates] and [merge] all identify them. *)

From Stdlib Require Import Bool Arith ZArith Lia List Ascii String.
From Stdlib Require Import Numbers.DecimalString Sorting.Permutation Sorting.Sorted.
From Stdlib Require Import Structures.OrderedTypeEx.
Import ListNotations.

Open Scope Z_scope.
Open Scope list_scope.
Open Scope string_scope.

(* ===================================================================== *)
(** * Part I: definitions                                                 *)
(* ===================================================================== *)

(** ** Python exceptions and fallible results *)

Inductive exn : Type :=
| ValueError
| IndexError
| TypeError
| AttributeError.

Inductive result (A : Type) : Type :=
| Ok (a : A)
| Raise (e : exn).

Arguments Ok {A} a.
Arguments Raise {A} e.

Definition bind {A B : Type} (r : result A) (k : A -> result B) : result B :=
  match r with
  | Ok a => k a
  | Raise e => Raise e
  end.

Notation "x <- r ;; k" := (bind r (fun x => k))
  (at level 61, r at next level, right associativity).

(** [try: r  except (handled): h]. *)
Definition catch {A : Type} (r : result A) (handled : exn -> bool) (h : result A)
  : result A :=
  match r with
  | Ok a => Ok a
  | Raise e => if handled e then h else Raise e
  end.

Fixpoint mapM {A B : Type} (f : A -> result B) (l : list A) : result (list B) :=
  match l with
  | [] => Ok []
  | a :: rest => b <- f a;; bs <- mapM f rest;; Ok (b :: bs)
  end.

(** ** Characters and strings *)

Definition is_digit (c : ascii) : bool :=
  let n := nat_of_ascii c in (48 <=? n)%nat && (n <=? 57)%nat.

Definition is_upper (c : ascii) : bool :=
  let n := nat_of_ascii c in (65 <=? n)%nat && (n <=? 90)%nat.

Definition is_space (c : ascii) : bool :=
  let n := nat_of_ascii c in
  (n =? 32)%nat || ((9 <=? n)%nat && (n <=? 13)%nat)
  || ((28 <=? n)%nat && (n <=? 31)%nat).

(** [str.lower] on one character. *)
Definition lower_char (c : ascii) : ascii :=
  if is_upper c then ascii_of_nat (nat_of_ascii c + 32)%nat else c.

(** [str.lower]. *)
Fixpoint lower (s : string) : string :=
  match s with
  | EmptyString => EmptyString
  | String c t => String (lower_char c) (lower t)
  end.

(** [str.translate] with a table built by [str.maketrans] from a dict of
    one-character keys: a character that is a key is replaced by its
    entry (possibly the empty string), any other is kept. *)
Fixpoint table_get (tbl : list (ascii * string)) (c : ascii) : option string :=
  match tbl with
  | [] => None
  | (k, v) :: rest => if Ascii.eqb k c then Some v else table_get rest c
  end.

Definition translate_char (tbl : list (ascii * string)) (c : ascii) : string :=
  match table_get tbl c with
  | Some v => v
  | None => String c EmptyString
  end.

Fixpoint translate (tbl : list (ascii * string)) (s : string) : string :=
  match s with
  | EmptyString => EmptyString
  | String c t => translate_char tbl c ++ translate tbl t
  end.

(** [str.lstrip], [str.rstrip] and [str.strip] without argument. *)
Fixpoint lstrip (s : string) : string :=
  match s with
  | EmptyString => EmptyString
  | String c t => if is_space c then lstrip t else s
  end.

Fixpoint rstrip (s : string) : string :=
  match s with
  | EmptyString => EmptyString
  | String c t =>
      match rstrip t with
      | EmptyString => if is_space c then EmptyString else String c EmptyString
      | t' => String c t'
      end
  end.

Definition strip (s : string) : string := rstrip (lstrip s).

(** [str.endswith]. *)
Fixpoint rev_string (s : string) : string :=
  match s with
  | EmptyString => EmptyString
  | String c t => rev_string t ++ String c EmptyString
  end.

Definition endswith (s suffix : string) : bool :=
  prefix (rev_string suffix) (rev_string s).

(** ** Column Normalizer ([clean_column_names]) *)

Definition transformations : list (ascii * string) :=
  [ ("-"%char, "_"); (" "%char, "_"); ("$"%char, ""); ("?"%char, "");
    ("/"%char, "_"); ("\"%char, "_"); ("%"%char, ""); (")"%char, "");
    ("("%char, "") ].

(** The expression applied to each column name:
    [col.lower().translate(transformations)]. *)
Definition normalize_name (col : string) : string :=
  translate transformations (lower col).

(** A data frame matters here through its header only; the function
    rewrites the header of every frame and keeps their order. *)
Definition clean_column_names (headers : list (list string)) : list (list string) :=
  map (fun columns => map normalize_name columns) headers.

(** ** Date Parser: [datetime.strptime] for the configured formats

    CPython's [_strptime] turns a format into a regular expression, one
    group per directive, matches it at the start of the text with
    backtracking and refuses text left over.  The directives below are
    those of [DATE_FORMATS], each with the expression CPython uses:
    %m is 1[0-2]|0[1-9]|[1-9], %d is 3[0-1]|[1-2]\d|0[1-9]|[1-9]| [1-9],
    %y is \d\d, %Y is \d\d\d\d and %b is one of the twelve abbreviated
    month names of the C locale, letter case ignored.  A matcher returns
    the list of its successes in backtracking order. *)

Record datetime : Type := mkdatetime
  { year : Z; month : Z; day : Z; time_of_day : Z }.

Definition calendar_date (d : datetime) : Z * Z * Z := (year d, month d, day d).

Inductive directive : Type :=
| D_m | D_d | D_y | D_Y | D_b
| Lit (c : ascii).

(** The format string read left to right; [None] is the ValueError for
    a directive outside the ones above or a stray percent sign. *)
Fixpoint compile_format (fmt : string) : option (list directive) :=
  match fmt with
  | EmptyString => Some []
  | String "%" (String c rest) =>
      let d := if Ascii.eqb c "m" then Some D_m
               else if Ascii.eqb c "d" then Some D_d
               else if Ascii.eqb c "y" then Some D_y
               else if Ascii.eqb c "Y" then Some D_Y
               else if Ascii.eqb c "b" then Some D_b
               else None in
      match d, compile_format rest with
      | Some d, Some ds => Some (d :: ds)
      | _, _ => None
      end
  | String "%" EmptyString => None
  | String c rest =>
      match compile_format rest with
      | Some ds => Some (Lit c :: ds)
      | None => None
      end
  end.

Definition digit_val (c : ascii) : Z := Z.of_nat (nat_of_ascii c) - 48.

Definition in_range (lo hi c : ascii) : bool :=
  (nat_of_ascii lo <=? nat_of_ascii c)%nat && (nat_of_ascii c <=? nat_of_ascii hi)%nat.

Definition matcher (A : Type) : Type := string -> list (A * string).

Definition sat (p : ascii -> bool) : matcher ascii :=
  fun s => match s with
           | String c t => if p c then [(c, t)] else []
           | EmptyString => []
           end.

Definition alt {A : Type} (p q : matcher A) : matcher A :=
  fun s => (p s ++ q s)%list.

Definition two {A : Type} (p q : ascii -> bool) (f : ascii -> ascii -> A) : matcher A :=
  fun s => flat_map (fun '(a, t) => map (fun '(b, u) => (f a b, u)) (sat q t)) (sat p s).

Definition one {A : Type} (p : ascii -> bool) (f : ascii -> A) : matcher A :=
  fun s => map (fun '(a, t) => (f a, t)) (sat p s).

Definition two_digits (a b : ascii) : Z := 10 * digit_val a + digit_val b.

Definition re_m : matcher Z :=
  alt (two (Ascii.eqb "1") (in_range "0" "2") two_digits)
 (alt (two (Ascii.eqb "0") (in_range "1" "9") two_digits)
      (one (in_range "1" "9") digit_val)).

Definition re_d : matcher Z :=
  alt (two (Ascii.eqb "3") (in_range "0" "1") two_digits)
 (alt (two (in_range "1" "2") is_digit two_digits)
 (alt (two (Ascii.eqb "0") (in_range "1" "9") two_digits)
 (alt (one (in_range "1" "9") digit_val)
      (two (Ascii.eqb " ") (in_range "1" "9") (fun _ b => digit_val b))))).

Definition re_y : matcher Z := two is_digit is_digit two_digits.

Definition re_Y : matcher Z :=
  fun s => flat_map (fun '(hi, t) => map (fun '(lo, u) => (100 * hi + lo, u)) (re_y t))
                    (re_y s).

Definition a_month : list string :=
  ["jan"; "feb"; "mar"; "apr"; "may"; "jun";
   "jul"; "aug"; "sep"; "oct"; "nov"; "dec"].

(** One month name at the start of the text, letter case ignored. *)
Definition month_name (name : string) : matcher string :=
  fun s => let n := String.length name in
           if String.eqb (lower (substring 0 n s)) name
           then [(name, substring n (String.length s - n)%nat s)]
           else [].

(** [a_month.index(name) + 1]. *)
Fixpoint month_index (names : list string) (name : string) (i : Z) : Z :=
  match names with
  | [] => i
  | n :: rest => if String.eqb n name then i else month_index rest name (i + 1)
  end.

Definition re_b : matcher Z :=
  fun s => flat_map (fun name => map (fun '(n, t) => (month_index a_month n 1, t))
                                     (month_name name s))
                    a_month.

(** The groups found so far. *)
Record fields : Type := mkfields
  { f_year : option Z; f_month : option Z; f_day : option Z }.

Definition no_fields : fields := mkfields None None None.

Definition match_directive (d : directive) (acc : fields) : matcher fields :=
  fun s =>
    match d with
    | D_m => map (fun '(v, t) => (mkfields (f_year acc) (Some v) (f_day acc), t)) (re_m s)
    | D_d => map (fun '(v, t) => (mkfields (f_year acc) (f_month acc) (Some v), t)) (re_d s)
    | D_y => map (fun '(v, t) =>
                    (mkfields (Some (if v <=? 68 then 2000 + v else 1900 + v)%Z)
                              (f_month acc) (f_day acc), t)) (re_y s)
    | D_Y => map (fun '(v, t) => (mkfields (Some v) (f_month acc) (f_day acc), t)) (re_Y s)
    | D_b => map (fun '(v, t) => (mkfields (f_year acc) (Some v) (f_day acc), t)) (re_b s)
    | Lit c => map (fun '(_, t) => (acc, t)) (sat (Ascii.eqb c) s)
    end.

Fixpoint match_directives (ds : list directive) (acc : fields) : matcher fields :=
  fun s =>
    match ds with
    | [] => [(acc, s)]
    | d :: rest =>
        flat_map (fun '(acc', t) => match_directives rest acc' t)
                 (match_directive d acc s)
    end.

Definition is_leap (y : Z) : bool :=
  ((y mod 4 =? 0) && negb (y mod 100 =? 0) || (y mod 400 =? 0))%Z.

Definition days_in_month (y m : Z) : Z :=
  (if m =? 2 then (if is_leap y then 29 else 28)
   else if (m =? 4) || (m =? 6) || (m =? 9) || (m =? 11) then 30
   else 31)%Z.

(** The [datetime(year, month, day)] constructor: ValueError outside
    the calendar. *)
Definition make_datetime (y m d : Z) : result datetime :=
  if ((1 <=? y) && (y <=? 9999) && (1 <=? m) && (m <=? 12)
      && (1 <=? d) && (d <=? days_in_month y m))%Z
  then Ok (mkdatetime y m d 0)
  else Raise ValueError.

Definition default (o : option Z) (d : Z) : Z :=
  match o with Some v => v | None => d end.

(** [datetime.strptime(data_string, format)]. *)
Definition strptime (data_string format : string) : result datetime :=
  match compile_format format with
  | None => Raise ValueError
  | Some ds =>
      match match_directives ds no_fields data_string with
      | [] => Raise ValueError
      | (found, EmptyString) :: _ =>
          make_datetime (default (f_year found) 1900)
                        (default (f_month found) 1)
                        (default (f_day found) 1)
      | (_, String _ _) :: _ => Raise ValueError
      end
  end.

Definition DATE_FORMATS : list string := ["%m/%d/%y"; "%d-%b-%y"; "%Y-%m-%d"].

(** [str(n)] for an integer. *)
Definition string_of_Z (z : Z) : string := NilZero.string_of_int (Z.to_int z).

(** ** Values of the data frames

    What the pipeline takes from outside Python's integers and text is
    an interface: the double-precision numbers with their reading and
    printing, the printing of a time stamp and the permissive date
    parser of pandas. *)

Class PyRuntime : Type := {
  float : Type;
  float_eq_dec : forall x y : float, {x = y} + {x <> y};
  (** [float(s)]: [None] is ValueError, [Some None] is nan. *)
  float_of_string : string -> option (option float);
  (** [float(n)] for an integer. *)
  float_of_Z : Z -> float;
  (** [str(x)]. *)
  string_of_float : float -> string;
  (** [str(ts)] for a time stamp. *)
  string_of_datetime : datetime -> string;
  (** [pd.to_datetime(s, errors='coerce')]: [None] is NaT. *)
  to_datetime : string -> option datetime
}.

Section Frames.

Context {RT : PyRuntime}.

Inductive cell : Type :=
| NA
| Int (z : Z)
| Float (x : float)
| Str (s : string)
| Date (d : datetime).

Definition datetime_eq_dec (x y : datetime) : {x = y} + {x <> y}.
Proof. decide equality; apply Z.eq_dec. Defined.

Definition cell_eq_dec (x y : cell) : {x = y} + {x <> y}.
Proof.
  decide equality;
    [apply Z.eq_dec | apply float_eq_dec | apply string_dec | apply datetime_eq_dec].
Defined.

(** [pd.isna]. *)
Definition isna (c : cell) : bool :=
  match c with NA => true | _ => false end.

(** [isinstance(value, str)]. *)
Definition is_str (c : cell) : bool :=
  match c with Str _ => true | _ => false end.

(** [str(value)]; a missing value prints as nan. *)
Definition py_str (c : cell) : string :=
  match c with
  | NA => "nan"
  | Int z => string_of_Z z
  | Float x => string_of_float x
  | Str s => s
  | Date d => string_of_datetime d
  end.

(** [float(value)], the cast applied to each element by [astype(float)]. *)
Definition py_float (c : cell) : result cell :=
  match c with
  | NA => Ok NA
  | Int z => Ok (Float (float_of_Z z))
  | Float x => Ok (Float x)
  | Str s =>
      match float_of_string s with
      | Some (Some x) => Ok (Float x)
      | Some None => Ok NA
      | None => Raise ValueError
      end
  | Date _ => Raise TypeError
  end.

(** ** Date Parser ([parse_date]) *)

Definition date_sentinels : list string :=
  ["Pre-PQ Process"; "Date Not Captured"; ""].

(** [date_str in [...]]: only text equals one of the sentinels. *)
Definition is_sentinel (c : cell) : bool :=
  match c with
  | Str s => existsb (String.eqb s) date_sentinels
  | _ => false
  end.

(** The loop over [DATE_FORMATS] and the fallback behind it. *)
Fixpoint try_formats (date_str : string) (formats : list string) : result cell :=
  match formats with
  | [] =>
      match to_datetime date_str with
      | Some d => Ok (Date d)
      | None => Ok NA
      end
  | fmt :: rest =>
      match strptime date_str fmt with
      | Ok d => Ok (Date d)
      | Raise ValueError => try_formats date_str rest
      | Raise e => Raise e
      end
  end.

Definition parse_date (date_str : cell) : result cell :=
  if isna date_str || is_sentinel date_str then Ok NA
  else try_formats (strip (py_str date_str)) DATE_FORMATS.

(** ** The selected columns and the rows of the working frame *)

Inductive column : Type :=
| ID | COUNTRY | SHIPMENT_MODE | SCHEDULED_DELIVERY_DATE
| DELIVERED_TO_CLIENT_DATE | DELIVERY_RECORDED_DATE
| PRODUCT_GROUP | SUB_CLASSIFICATION | VENDOR
| ITEM_DESCRIPTION | MOLECULE_TEST_TYPE | BRAND
| DOSAGE | DOSAGE_FORM | LINE_ITEM_QUANTITY
| LINE_ITEM_VALUE | UNIT_PRICE | WEIGHT_KILOGRAMS
| FREIGHT_COST_USD | LINE_ITEM_INSURANCE_USD.

Definition SELECTED_COLUMNS : list column :=
  [ ID; COUNTRY; SHIPMENT_MODE; SCHEDULED_DELIVERY_DATE;
    DELIVERED_TO_CLIENT_DATE; DELIVERY_RECORDED_DATE;
    PRODUCT_GROUP; SUB_CLASSIFICATION; VENDOR;
    ITEM_DESCRIPTION; MOLECULE_TEST_TYPE; BRAND;
    DOSAGE; DOSAGE_FORM; LINE_ITEM_QUANTITY;
    LINE_ITEM_VALUE; UNIT_PRICE; WEIGHT_KILOGRAMS;
    FREIGHT_COST_USD; LINE_ITEM_INSURANCE_USD ].

(** One row of [dataframes[0][SELECTED_COLUMNS]]; [id] is the integer
    column of the source file. *)
Record row : Type := mkrow {
  id : Z;
  country : cell;
  shipment_mode : cell;
  scheduled_delivery_date : cell;
  delivered_to_client_date : cell;
  delivery_recorded_date : cell;
  product_group : cell;
  sub_classification : cell;
  vendor : cell;
  item_description : cell;
  molecule_test_type : cell;
  brand : cell;
  dosage : cell;
  dosage_form : cell;
  line_item_quantity : cell;
  line_item_value : cell;
  unit_price : cell;
  weight_kilograms : cell;
  freight_cost_usd : cell;
  line_item_insurance_usd : cell
}.

(** [row[column]]. *)
Definition get (c : column) (r : row) : cell :=
  match c with
  | ID => Int (id r)
  | COUNTRY => country r
  | SHIPMENT_MODE => shipment_mode r
  | SCHEDULED_DELIVERY_DATE => scheduled_delivery_date r
  | DELIVERED_TO_CLIENT_DATE => delivered_to_client_date r
  | DELIVERY_RECORDED_DATE => delivery_recorded_date r
  | PRODUCT_GROUP => product_group r
  | SUB_CLASSIFICATION => sub_classification r
  | VENDOR => vendor r
  | ITEM_DESCRIPTION => item_description r
  | MOLECULE_TEST_TYPE => molecule_test_type r
  | BRAND => brand r
  | DOSAGE => dosage r
  | DOSAGE_FORM => dosage_form r
  | LINE_ITEM_QUANTITY => line_item_quantity r
  | LINE_ITEM_VALUE => line_item_value r
  | UNIT_PRICE => unit_price r
  | WEIGHT_KILOGRAMS => weight_kilograms r
  | FREIGHT_COST_USD => freight_cost_usd r
  | LINE_ITEM_INSURANCE_USD => line_item_insurance_usd r
  end.

(** The two assignments [df[col] = ...] of the pipeline, on one row. *)
Definition set_weight_kilograms (v : cell) (r : row) : row :=
  mkrow (id r) (country r) (shipment_mode r) (scheduled_delivery_date r)
        (delivered_to_client_date r) (delivery_recorded_date r)
        (product_group r) (sub_classification r) (vendor r)
        (item_description r) (molecule_test_type r) (brand r)
        (dosage r) (dosage_form r) (line_item_quantity r)
        (line_item_value r) (unit_price r) v
        (freight_cost_usd r) (line_item_insurance_usd r).

Definition set_freight_cost_usd (v : cell) (r : row) : row :=
  mkrow (id r) (country r) (shipment_mode r) (scheduled_delivery_date r)
        (delivered_to_client_date r) (delivery_recorded_date r)
        (product_group r) (sub_classification r) (vendor r)
        (item_description r) (molecule_test_type r) (brand r)
        (dosage r) (dosage_form r) (line_item_quantity r)
        (line_item_value r) (unit_price r) (weight_kilograms r)
        v (line_item_insurance_usd r).

(** The columns the resolution step rewrites. *)
Inductive reference_column : Type :=
| FreightCostUsd
| WeightKilograms.

Definition column_of (c : reference_column) : column :=
  match c with
  | FreightCostUsd => FREIGHT_COST_USD
  | WeightKilograms => WEIGHT_KILOGRAMS
  end.

Definition set (c : reference_column) (v : cell) (r : row) : row :=
  match c with
  | FreightCostUsd => set_freight_cost_usd v r
  | WeightKilograms => set_weight_kilograms v r
  end.

(** ** Reference Resolver ([resolve_id_reference])

    [ID_PATTERN] is a colon followed by one or more digits.  [re.match]
    tries it at the start of the text only, [re.search] at every
    position from the left; the digits are taken greedily. *)

Fixpoint take_digits (s : string) : string :=
  match s with
  | String c t => if is_digit c then String c (take_digits t) else EmptyString
  | EmptyString => EmptyString
  end.

(** [re.match(ID_PATTERN, s)]: the matched text, if any. *)
Definition re_match_id (s : string) : option string :=
  match s with
  | String c t =>
      if Ascii.eqb c ":" then
        match take_digits t with
        | EmptyString => None
        | ds => Some (String ":" ds)
        end
      else None
  | EmptyString => None
  end.

(** [re.search(ID_PATTERN, s)]: the leftmost match, if any. *)
Fixpoint re_search_id (s : string) : option string :=
  match re_match_id s with
  | Some m => Some m
  | None =>
      match s with
      | String _ t => re_search_id t
      | EmptyString => None
      end
  end.

(** [s.replace(old, "")] for a one-character [old]. *)
Fixpoint remove_char (old : ascii) (s : string) : string :=
  match s with
  | String c t => if Ascii.eqb c old then remove_char old t
                  else String c (remove_char old t)
  | EmptyString => EmptyString
  end.

Fixpoint digits_value (acc : Z) (s : string) : option Z :=
  match s with
  | String c t => if is_digit c then digits_value (10 * acc + digit_val c) t else None
  | EmptyString => Some acc
  end.

(** [int(s)] on the texts the resolver passes: a run of digits is its
    decimal value, anything else here is ValueError. *)
Definition py_int (s : string) : result Z :=
  match s with
  | EmptyString => Raise ValueError
  | _ => match digits_value 0 s with
         | Some n => Ok n
         | None => Raise ValueError
         end
  end.

(** [dataset.loc[dataset["id"] == n, column]]. *)
Definition loc_id (dataset : list row) (n : Z) (c : column) : list cell :=
  map (get c) (filter (fun r => Z.eqb (id r) n) dataset).

(** [filtered.iloc[0]]. *)
Definition iloc0 (filtered : list cell) : result cell :=
  match filtered with
  | v :: _ => Ok v
  | [] => Raise IndexError
  end.

(** The guard of the early return:
    [not isinstance(value, str) or not re.match(ID_PATTERN, value)]. *)
Definition returns_early (value : cell) : bool :=
  match value with
  | Str s => match re_match_id s with Some _ => false | None => true end
  | _ => true
  end.

(** [re.search(ID_PATTERN, value).group().replace(":", "")]; calling
    [group] on no match is AttributeError, searching in a value that is
    not text is TypeError. *)
Definition reference_id_str (value : cell) : result string :=
  match value with
  | Str s =>
      match re_search_id s with
      | Some m => Ok (remove_char ":" m)
      | None => Raise AttributeError
      end
  | _ => Raise TypeError
  end.

(** [except (ValueError, IndexError)]; the handler prints a diagnostic,
    which is not part of the result, and returns the value. *)
Definition handles_lookup (e : exn) : bool :=
  match e with ValueError | IndexError => true | _ => false end.

Definition resolve_id_reference (value : cell) (dataset : list row) (c : column)
  : result cell :=
  if returns_early value then Ok value
  else
    id_str <- reference_id_str value;;
    catch (n <- py_int id_str;;
           let filtered := loc_id dataset n c in
           match filtered with
           | [] => Ok value
           | _ => iloc0 filtered
           end)
          handles_lookup
          (Ok value).

(** ** Steps 5 and 6 of [main] *)

(** [series.astype(str)], one element, as pandas 2 performs it: every
    value becomes text, a missing one the text nan. *)
Definition astype_str (c : cell) : cell := Str (py_str c).

Definition handles_cast (e : exn) : bool :=
  match e with ValueError | TypeError => true | _ => false end.

(** [series.astype(float, errors='ignore')]: the whole column is cast,
    and if the cast of any element raises the column is returned as it
    was. *)
Definition astype_float_ignore (series : list cell) : list cell :=
  match catch (mapM py_float series) handles_cast (Ok series) with
  | Ok casted => casted
  | Raise _ => series
  end.

Definition column_values (c : column) (df : list row) : list cell :=
  map (get c) df.

(** [df[col] = values], the values aligned with the rows. *)
Definition assign (c : reference_column) (values : list cell) (df : list row)
  : list row :=
  map (fun '(r, v) => set c v r) (combine df values).

(** The right-hand side of the assignment in step 5. *)
Definition resolve_column (df dataset : list row) (c : reference_column)
  : result (list cell) :=
  resolved <- mapM (fun x => resolve_id_reference (astype_str x) dataset (column_of c))
                   (column_values (column_of c) df);;
  Ok (astype_float_ignore resolved).

(** Step 5: [dataset] is the copy taken before the loop. *)
Definition resolve_references (df : list row) : result (list row) :=
  let dataset := df in
  fold_left (fun acc c =>
               df' <- acc;;
               values <- resolve_column df' dataset c;;
               Ok (assign c values df'))
            [FreightCostUsd; WeightKilograms]
            (Ok df).

(** Step 6: [df.dropna(subset=["shipment_mode", "line_item_insurance_usd"])]
    keeps the rows in which neither column is missing.  Empty fields
    of the source file are missing values in the frame: [pd.read_csv]
    reads them as NaN. *)
Definition complete (r : row) : bool :=
  negb (isna (shipment_mode r)) && negb (isna (line_item_insurance_usd r)).

Definition dropna (df : list row) : list row := filter complete df.

End Frames.

(** ** Dimension Extractor: the data-frame operations it uses *)

Section Dimensions.

Context {K : Type} (K_eq_dec : forall x y : K, {x = y} + {x <> y}).

Definition mem (k : K) (l : list K) : bool :=
  if in_dec K_eq_dec k l then true else false.

(** [drop_duplicates()], which keeps the first occurrence of every key:
    a row is dropped when its key was seen in an earlier row. *)
Fixpoint drop_duplicates_from (seen keys : list K) : list K :=
  match keys with
  | [] => []
  | k :: rest =>
      if mem k seen then drop_duplicates_from seen rest
      else k :: drop_duplicates_from (k :: seen) rest
  end.

Definition drop_duplicates (keys : list K) : list K :=
  drop_duplicates_from [] keys.

(** [reset_index(drop=True)] followed by [t["..._id"] = t.index + 1]. *)
Definition add_ids (keys : list K) : list (K * Z) :=
  combine keys (map (fun i => Z.of_nat i + 1) (seq 0 (List.length keys))).

Definition dimension (keys : list K) : list (K * Z) :=
  add_ids (drop_duplicates keys).

(** [left.merge(right, how="left")] on the key: the rows of [left] in
    their order, each once per matching row of [right], or once with a
    missing identifier when no row of [right] matches. *)
Definition merge_left {R : Type} (left : list R) (key : R -> K)
  (right : list (K * Z)) : list (R * option Z) :=
  flat_map
    (fun r =>
       match filter (fun d => if K_eq_dec (fst d) (key r) then true else false) right with
       | [] => [(r, None)]
       | matches => map (fun d => (r, Some (snd d))) matches
       end)
    left.

(** The identifier a key has in a dimension table, if any. *)
Fixpoint dimension_id (table : list (K * Z)) (k : K) : option Z :=
  match table with
  | [] => None
  | (k', i) :: rest => if K_eq_dec k' k then Some i else dimension_id rest k
  end.

(** Position of the first occurrence of a key. *)
Fixpoint first_index (k : K) (keys : list K) : option nat :=
  match keys with
  | [] => None
  | k' :: rest =>
      if K_eq_dec k' k then Some O
      else match first_index k rest with
           | Some i => Some (S i)
           | None => None
           end
  end.

(** [a] first appears before [b] does. *)
Definition appears_before (keys : list K) (a b : K) : Prop :=
  match first_index a keys, first_index b keys with
  | Some i, Some j => (i < j)%nat
  | _, _ => False
  end.

(** What the extraction of a dimension promises: as many rows as
    there are distinct keys, identifiers 1 to n in the order of the
    rows, every key once, and the keys in the order of their first
    appearance. *)
Definition numbers_distinct_keys (keys : list K) (table : list (K * Z)) : Prop :=
  List.length table = List.length (nodup K_eq_dec keys)
  /\ map snd table = map Z.of_nat (seq 1 (List.length table))
  /\ NoDup (map fst table)
  /\ (forall k, In k (map fst table) <-> In k keys)
  /\ (forall i j a b,
        (i < j)%nat ->
        nth_error (map fst table) i = Some a ->
        nth_error (map fst table) j = Some b ->
        appears_before keys a b).

End Dimensions.

Section Extractor.

Context {RT : PyRuntime}.

(** The natural key of a product: seven columns. *)
Record product_key : Type := mkproduct_key {
  key_product_group : cell;
  key_sub_classification : cell;
  key_item_description : cell;
  key_molecule_test_type : cell;
  key_brand : cell;
  key_dosage : cell;
  key_dosage_form : cell
}.

Definition product_key_eq_dec (x y : product_key) : {x = y} + {x <> y}.
Proof. decide equality; apply cell_eq_dec. Defined.

Definition product_key_of (r : row) : product_key :=
  mkproduct_key (product_group r) (sub_classification r) (item_description r)
                (molecule_test_type r) (brand r) (dosage r) (dosage_form r).

(** One row of the fact table, in the order of [final_columns]; an
    identifier is missing when the merge found no match. *)
Record delivery : Type := mkdelivery {
  delivery_id : Z;
  country_id : option Z;
  mode_id : option Z;
  fact_scheduled_delivery_date : cell;
  fact_delivered_to_client_date : cell;
  fact_delivery_recorded_date : cell;
  product_id : option Z;
  vendor_id : option Z;
  fact_line_item_quantity : cell;
  fact_line_item_value : cell;
  fact_unit_price : cell;
  fact_weight_kilograms : cell;
  fact_freight_cost_usd : cell;
  fact_line_item_insurance_usd : cell
}.

(** The four tables: (country_name, country_id), (vendor_name,
    vendor_id), (mode_name, mode_id) and the seven product columns with
    product_id. *)
Record dimensions : Type := mkdimensions {
  countries : list (cell * Z);
  vendors : list (cell * Z);
  transport_modes : list (cell * Z);
  products : list (product_key * Z)
}.

Definition select_final_columns
  (merged : row * option Z * option Z * option Z * option Z) : delivery :=
  let '(r, cid, vid, mid, pid) := merged in
  mkdelivery (id r) cid mid
             (scheduled_delivery_date r) (delivered_to_client_date r)
             (delivery_recorded_date r) pid vid
             (line_item_quantity r) (line_item_value r) (unit_price r)
             (weight_kilograms r) (freight_cost_usd r)
             (line_item_insurance_usd r).

Definition create_dimension_tables (df : list row) : list delivery * dimensions :=
  let countries := dimension cell_eq_dec (map country df) in
  let vendors := dimension cell_eq_dec (map vendor df) in
  let transport_modes := dimension cell_eq_dec (map shipment_mode df) in
  let products := dimension product_key_eq_dec (map product_key_of df) in
  let df_with_ids := merge_left cell_eq_dec df country countries in
  let df_with_ids :=
    merge_left cell_eq_dec df_with_ids (fun x => vendor (fst x)) vendors in
  let df_with_ids :=
    merge_left cell_eq_dec df_with_ids
               (fun x => shipment_mode (fst (fst x))) transport_modes in
  let df_with_ids :=
    merge_left product_key_eq_dec df_with_ids
               (fun x => product_key_of (fst (fst (fst x)))) products in
  (map select_final_columns df_with_ids,
   mkdimensions countries vendors transport_modes products).

(** The fact row made from one input row: the input columns kept, and
    the identifiers looked up in the four tables. *)
Definition fact_of (dims : dimensions) (r : row) : delivery :=
  mkdelivery (id r)
             (dimension_id cell_eq_dec (countries dims) (country r))
             (dimension_id cell_eq_dec (transport_modes dims) (shipment_mode r))
             (scheduled_delivery_date r) (delivered_to_client_date r)
             (delivery_recorded_date r)
             (dimension_id product_key_eq_dec (products dims) (product_key_of r))
             (dimension_id cell_eq_dec (vendors dims) (vendor r))
             (line_item_quantity r) (line_item_value r) (unit_price r)
             (weight_kilograms r) (freight_cost_usd r)
             (line_item_insurance_usd r).

(** Steps 5 to 7 of [main]: resolution, cleaning, extraction. *)
Definition main_transform (df : list row) : result (list delivery * dimensions) :=
  df <- resolve_references df;;
  let df := dropna df in
  Ok (create_dimension_tables df).

End Extractor.

(** ** Persistence: the statement built by [create_table] *)

Definition column_types : list (string * string) :=
  [ ("int64", "BIGINT"); ("float64", "DOUBLE PRECISION");
    ("datetime64[ns]", "TIMESTAMP"); ("object", "TEXT"); ("bool", "BOOLEAN") ].

(** [d.get(key, default)]. *)
Fixpoint dict_get (d : list (string * string)) (key default : string) : string :=
  match d with
  | [] => default
  | (k, v) :: rest => if String.eqb k key then v else dict_get rest key default
  end.

Definition primary_key_clause : string := " NOT NULL PRIMARY KEY".

(** The definition appended to [columns_def] for one column. *)
Definition column_def (table_name col dtype : string) : string :=
  let pg_type := dict_get column_types dtype "TEXT" in
  if String.eqb table_name "deliveries" && String.eqb col "delivery_id"
  then col ++ " " ++ pg_type ++ primary_key_clause
  else if negb (String.eqb table_name "deliveries") && endswith col "_id"
  then col ++ " " ++ pg_type ++ primary_key_clause
  else col ++ " " ++ pg_type.

Record foreign_key : Type := mkforeign_key {
  fk_column : string;
  fk_ref_table : string;
  fk_ref_column : string
}.

Definition foreign_key_def (fk : foreign_key) : string :=
  "FOREIGN KEY (" ++ fk_column fk ++ ") REFERENCES " ++ fk_ref_table fk
  ++ " (" ++ fk_ref_column fk ++ ")".

(** [columns_def]: the columns of the frame in order, then the foreign
    keys. *)
Definition columns_def (table_name : string) (dtypes : list (string * string))
  (foreign_keys : list foreign_key) : list string :=
  (map (fun '(col, dtype) => column_def table_name col dtype) dtypes
   ++ map foreign_key_def foreign_keys)%list.

Definition double_quote : ascii := ascii_of_nat 34.

(** [sql.Identifier]: the name between double quotes, a double quote
    inside it written twice. *)
Fixpoint escape_identifier (s : string) : string :=
  match s with
  | EmptyString => EmptyString
  | String c t =>
      if Ascii.eqb c double_quote
      then String double_quote (String double_quote (escape_identifier t))
      else String c (escape_identifier t)
  end.

Definition quote_identifier (s : string) : string :=
  String double_quote (escape_identifier s ++ String double_quote EmptyString).

Definition create_table_query (table_name : string) (dtypes : list (string * string))
  (foreign_keys : list foreign_key) : string :=
  "CREATE TABLE IF NOT EXISTS " ++ quote_identifier table_name ++ " ("
  ++ String.concat ", " (columns_def table_name dtypes foreign_keys) ++ ")".

(** A column definition declares the primary key when it carries the
    clause. *)
Definition declares_primary_key (def : string) : bool :=
  endswith def primary_key_clause.

(** ** Notions used to state and prove the properties *)

(** The characters a numeric directive can consume. *)
Definition field_char (c : ascii) : bool := is_digit c || Ascii.eqb c " ".

(** The length of the leading run of such characters, and what follows. *)
Fixpoint skip_field (s : string) : nat * string :=
  match s with
  | String c t =>
      if field_char c then (S (fst (skip_field t)), snd (skip_field t))
      else (O, s)
  | EmptyString => (O, EmptyString)
  end.

(** A numeric directive consumed [n] field characters of [s] and left
    [t], which starts with another character. *)
Definition consumed (n : nat) (s t : string) : Prop :=
  forall c u, t = String c u -> field_char c = false ->
              skip_field s = (n, t).

Section Notions.

Context {RT : PyRuntime}.

(** The integer a text refers to: the digits of the leftmost
    occurrence of the reference pattern. *)
Definition reference_id (s : string) : option Z :=
  match re_search_id s with
  | Some m =>
      match py_int (remove_char ":" m) with
      | Ok n => Some n
      | Raise _ => None
      end
  | None => None
  end.

(** The numeric cast of one value on its own: the number when the cast
    succeeds, the value as it was when it fails. *)
Definition casts (v : cell) : bool :=
  match py_float v with Ok _ => true | Raise _ => false end.

Definition coerce_value (v : cell) : cell :=
  match py_float v with Ok x => x | Raise _ => v end.

(** The values of a column after resolution and before the cast. *)
Definition resolved_values (df : list row) (c : reference_column)
  : result (list cell) :=
  mapM (fun x => resolve_id_reference (astype_str x) df (column_of c))
       (column_values (column_of c) df).

(** Coercion value by value: each value of the column that casts
    becomes a number, whatever the other values of the column do. *)
Definition coercion_per_value (df : list row) (c : reference_column) : Prop :=
  forall resolved df',
    resolved_values df c = Ok resolved ->
    resolve_references df = Ok df' ->
    column_values (column_of c) df' = map coerce_value resolved.

(** What the cleaning step reads of a row, and its identifier. *)
Definition cleaning_view (r : row) : Z * cell * cell :=
  (id r, shipment_mode r, line_item_insurance_usd r).

End Notions.

(** ** A runtime to evaluate the model on concrete frames

    Exact decimals, mantissa over a power of ten, stand for the
    doubles; the reader covers the plain literals of [float]: optional
    sign, digits, optional point and digits, and nan.  The permissive
    date parser is represented by one of the forms pandas accepts
    beyond the configured ones: eight digits, year month day. *)

Record decimal : Type := mkdecimal { mantissa : Z; scale : nat }.

Definition decimal_eq_dec (x y : decimal) : {x = y} + {x <> y}.
Proof. decide equality; [apply Nat.eq_dec | apply Z.eq_dec]. Defined.

Fixpoint read_fraction (s : string) (m : Z) (k : nat) : option decimal :=
  match s with
  | EmptyString => Some (mkdecimal m k)
  | String c t =>
      if is_digit c then read_fraction t (10 * m + digit_val c) (S k) else None
  end.

Fixpoint read_integer (s : string) (m : Z) : option decimal :=
  match s with
  | EmptyString => Some (mkdecimal m O)
  | String c t =>
      if is_digit c then read_integer t (10 * m + digit_val c)
      else if Ascii.eqb c "." then read_fraction t m O
      else None
  end.

Definition decimal_of_string (s : string) : option (option decimal) :=
  let s := strip s in
  if String.eqb (lower s) "nan" then Some None
  else
    let '(negative, body) :=
      match s with
      | String c t =>
          if Ascii.eqb c "-" then (true, t)
          else if Ascii.eqb c "+" then (false, t)
          else (false, s)
      | EmptyString => (false, s)
      end in
    if existsb is_digit (list_ascii_of_string body) then
      match read_integer body 0 with
      | Some d => Some (Some (if negative : bool
                              then mkdecimal (- mantissa d) (scale d) else d))
      | None => None
      end
    else None.

Definition string_of_decimal (d : decimal) : string :=
  let m := Z.abs (mantissa d) in
  let p := 10 ^ Z.of_nat (scale d) in
  (if mantissa d <? 0 then "-" else "")%Z
  ++ string_of_Z (m / p) ++ "."
  ++ match scale d with
     | O => "0"
     | S _ => substring 1 (scale d) (string_of_Z (p + m mod p))
     end.

Definition pad2 (z : Z) : string :=
  substring 1 2 (string_of_Z (100 + z mod 100)).

Definition pad4 (z : Z) : string :=
  substring 1 4 (string_of_Z (10000 + z mod 10000)).

Definition print_datetime (d : datetime) : string :=
  pad4 (year d) ++ "-" ++ pad2 (month d) ++ "-" ++ pad2 (day d) ++ " "
  ++ pad2 (time_of_day d / 3600) ++ ":" ++ pad2 (time_of_day d / 60 mod 60)
  ++ ":" ++ pad2 (time_of_day d mod 60).

Definition read_compact_date (s : string) : option datetime :=
  if (String.length s =? 8)%nat then
    match digits_value 0 (substring 0 4 s),
          digits_value 0 (substring 4 2 s),
          digits_value 0 (substring 6 2 s) with
    | Some y, Some m, Some d =>
        match make_datetime y m d with
        | Ok dt => Some dt
        | Raise _ => None
        end
    | _, _, _ => None
    end
  else None.

#[export] Instance decimal_runtime : PyRuntime := {|
  float := decimal;
  float_eq_dec := decimal_eq_dec;
  float_of_string := decimal_of_string;
  float_of_Z := fun z => mkdecimal z O;
  string_of_float := string_of_decimal;
  string_of_datetime := print_datetime;
  to_datetime := read_compact_date
|}.

(** ** A small frame in the shape of the delivery history file

    Columns that hold text in some row hold text in every row, as
    [pd.read_csv] delivers them; an empty field is missing. *)

Definition sample_row (i : Z) (country vendor shipment_mode : cell)
  (weight_kilograms freight_cost_usd line_item_insurance_usd : cell) : row :=
  mkrow i country shipment_mode
        (Date (mkdatetime 2006 6 2 0)) (Date (mkdatetime 2006 6 2 0)) NA
        (Str "ARV") (Str "Adult") vendor
        (Str "Lamivudine 150mg, tablets, 60 Tabs") (Str "Lamivudine")
        (Str "Generic") (Str "150mg") (Str "Tablet")
        (Int 1000) (Float (mkdecimal 62000 1)) (Float (mkdecimal 62 1))
        weight_kilograms freight_cost_usd line_item_insurance_usd.

Definition sample_frame : list row :=
  [ sample_row 1281 (Str "Nigeria") (Str "SCMS from RDC") (Str "Air")
               (Str "358") (Str "4521.5") (Float (mkdecimal 4704 2));
    sample_row 1282 (Str "Zambia") (Str "Aurobindo Pharma Limited") (Str "Truck")
               (Str ":1281") (Str "Freight Included in Commodity Cost")
               (Float (mkdecimal 1595 2));
    sample_row 1283 (Str "Nigeria") (Str "SCMS from RDC") NA
               (Str "See ASN-93 (ID#:1281)") (Str ":999")
               (Float (mkdecimal 830 2));
    sample_row 1284 (Str "Zambia") (Str "SCMS from RDC") (Str "Air")
               (Str "Weight Captured Separately") (Str "Invoiced Separately") NA ].

(** A character is kept as it is when it is neither an upper-case
    letter nor a key of the table. *)
Definition kept_char (c : ascii) : bool :=
  negb (is_upper c)
  && match table_get transformations c with Some _ => false | None => true end.

(** A text made of white space only. *)
Definition blank (s : string) : bool :=
  forallb is_space (list_ascii_of_string s).

(** The year a two-digit year stands for. *)
Definition pivot_year (v : Z) : Z := (if v <=? 68 then 2000 + v else 1900 + v)%Z.

(** ** Loader ([load_csv_files])

    The file system is what the function reads of it: [os.listdir],
    which gives the names in a directory or raises (FileNotFoundError
    when the directory does not exist), and [pd.read_csv], which gives
    the frame of a path or raises (ParserError, and FileNotFoundError,
    EmptyDataError, UnicodeDecodeError and others).  Both handlers of
    the function print and raise the exception again, and the others
    pass through, so the function fails with the exception it met;
    the model keeps it together with the call that raised it. *)

Inductive load_exn (E : Type) : Type :=
| ListingRaised (e : E)
| ReadRaised (e : E)
| NoCsvFile.

Arguments ListingRaised {E} e.
Arguments ReadRaised {E} e.
Arguments NoCsvFile {E}.

(** The order of [sorted] on names. *)
Definition name_le (a b : string) : Prop := String.leb a b = true.

(** [sorted] on a list of strings, by code points. *)
Fixpoint insert_sorted (x : string) (l : list string) : list string :=
  match l with
  | [] => [x]
  | y :: rest => if String.leb x y then x :: l else y :: insert_sorted x rest
  end.

Definition sorted (l : list string) : list string :=
  fold_right insert_sorted [] l.

(** [os.path.join(directory, file)] for a file name of a listing. *)
Definition path_join (directory file : string) : string :=
  if String.eqb directory "" then file
  else if endswith directory "/" then directory ++ file
  else directory ++ "/" ++ file.

(** The list comprehension: the files are read in order and the first
    read that raises stops the loading. *)
Fixpoint read_all {E F : Type} (read_csv : string -> E + F) (paths : list string)
  : load_exn E + list F :=
  match paths with
  | [] => inr []
  | p :: rest =>
      match read_csv p with
      | inl e => inl (ReadRaised e)
      | inr df =>
          match read_all read_csv rest with
          | inr dfs => inr (df :: dfs)
          | inl e => inl e
          end
      end
  end.

Definition csv_files (listing : list string) : list string :=
  filter (fun file => endswith file ".csv") (sorted listing).

(** With no frame read, the function raises ValueError, no CSV file
    found in the directory. *)
Definition load_csv_files {E F : Type} (listdir : string -> E + list string)
  (read_csv : string -> E + F) (directory : string) : load_exn E + list F :=
  match listdir directory with
  | inl e => inl (ListingRaised e)
  | inr listing =>
      match read_all read_csv (map (path_join directory) (csv_files listing)) with
      | inr [] => inl NoCsvFile
      | inr dataframes => inr dataframes
      | inl e => inl e
      end
  end.

(** ** Date columns ([find_date_columns], [convert_date_columns]) *)

(** [sub in s]. *)
Fixpoint contains (sub s : string) : bool :=
  prefix sub s
  || match s with
     | String _ t => contains sub t
     | EmptyString => false
     end.

Definition is_date_column (col : string) : bool := contains "date" (lower col).

Definition find_date_columns (columns : list string) : list string :=
  filter is_date_column columns.

Section DateColumns.

Context {RT : PyRuntime}.

(** A data frame with any header: its columns in order, each with its
    name and its values. *)
Definition frame : Type := list (string * list cell).

Definition frame_columns (df : frame) : list string := map fst df.

Definition count_column (col : string) (df : frame) : nat :=
  List.length (filter (fun c => String.eqb (fst c) col) df).

(** [series.astype(str).str.strip().apply(parse_date)], one element. *)
Definition convert_date_cell (c : cell) : result cell :=
  parse_date (Str (strip (py_str c))).

(** [df[col] = df[col].astype(str).str.strip().apply(parse_date)] for a
    name of the header.  Under a name carried by several columns
    [df[col]] is a frame, which has no [str] accessor. *)
Definition convert_date_column (col : string) (df : frame) : result frame :=
  if (1 <? count_column col df)%nat then Raise AttributeError
  else
    mapM (fun '(name, series) =>
            if String.eqb name col
            then converted <- mapM convert_date_cell series;; Ok (name, converted)
            else Ok (name, series))
         df.

(** The date columns are found once, before the loop. *)
Definition convert_date_columns (df : frame) : result frame :=
  let date_columns := find_date_columns (frame_columns df) in
  fold_left (fun acc col => df <- acc;; convert_date_column col df)
            date_columns (Ok df).

(** What [convert_date_columns] does to one column. *)
Definition converted_column (c c' : string * list cell) : Prop :=
  fst c' = fst c
  /\ if is_date_column (fst c)
     then mapM convert_date_cell (snd c) = Ok (snd c')
     else snd c' = snd c.

Definition absent_or_date (v : cell) : Prop := v = NA \/ exists d, v = Date d.

Definition absent_or_number (v : cell) : Prop := v = NA \/ exists x, v = Float x.

End DateColumns.

(** ** The tables of [main] and their keys *)





(** The columns of a table that [create_table] declares as primary
    key, whatever their types. *)
Definition primary_key_columns (table_name : string) (columns : list string)
  : list string :=
  filter (fun col => declares_primary_key (column_def table_name col "int64"))
         columns.


(** ** More sample data *)

(** A frame whose weights all cast once resolved. *)
Definition sample_numeric : list row :=
  [ sample_row 1 (Str "Nigeria") (Str "SCMS from RDC") (Str "Air")
               (Str "358") (Str "4521.5") (Float (mkdecimal 4704 2));
    sample_row 2 (Str "Zambia") (Str "SCMS from RDC") (Str "Truck")
               (Str ":1") (Str "12") (Float (mkdecimal 1595 2)) ].

(** A header as the source file has it, and a small frame with date
    columns. *)
Definition sample_header : list string :=
  ["ID"; "Shipment Mode"; "Scheduled Delivery Date"; "Line Item Insurance (USD)"].

Definition sample_dates : frame :=
  [ ("id", [Int 1; Int 2; Int 3]);
    ("scheduled_delivery_date",
     [Str "2-Jun-06"; Str " Date Not Captured "; NA]);
    ("vendor", [Str "SCMS from RDC"; Str "6/2/06"; NA]) ].

Definition sample_listing (directory : string) : string + list string :=
  if String.eqb directory "dataset"
  then inr ["notes.txt"; "b.csv"; "a.csv"]
  else inl "FileNotFoundError".

Definition sample_read_csv (path : string) : string + string :=
  if endswith path ".csv" then inr ("frame of " ++ path) else inl "ParserError".

(* ===================================================================== *)
(** * Part II: properties                                                 *)
(* ===================================================================== *)

(** ** Strings *)

Lemma append_assoc (s1 s2 s3 : string) : (s1 ++ s2) ++ s3 = s1 ++ (s2 ++ s3).
Proof. induction s1 as [|c t IH]; simpl; [reflexivity | now rewrite IH]. Qed.

Lemma append_empty_r (s : string) : s ++ "" = s.
Proof. induction s as [|c t IH]; simpl; [reflexivity | now rewrite IH]. Qed.

(** ** Column Normalizer *)

Lemma translate_app tbl s1 s2 :
  translate tbl (s1 ++ s2) = translate tbl s1 ++ translate tbl s2.
Proof.
  induction s1 as [|c t IH]; simpl; [reflexivity|].
  rewrite IH. now rewrite append_assoc.
Qed.

Lemma lower_app s1 s2 : lower (s1 ++ s2) = lower s1 ++ lower s2.
Proof.
  induction s1 as [|c t IH]; simpl; [reflexivity|]. now rewrite IH.
Qed.

Lemma normalize_name_app s1 s2 :
  normalize_name (s1 ++ s2) = normalize_name s1 ++ normalize_name s2.
Proof. unfold normalize_name. now rewrite lower_app, translate_app. Qed.

(** What one character becomes is already in normal form. *)
Lemma normalize_char_fixed (c : ascii) :
  normalize_name (normalize_name (String c EmptyString))
  = normalize_name (String c EmptyString).
Proof.
  destruct c as [[] [] [] [] [] [] [] []]; vm_compute; reflexivity.
Qed.

(** A normalized name is a fixed point of the normalization. *)
Lemma normalize_name_fixed (col : string) :
  normalize_name (normalize_name col) = normalize_name col.
Proof.
  induction col as [|c t IH]; [reflexivity|].
  change (String c t) with (String c EmptyString ++ t).
  rewrite !normalize_name_app, normalize_char_fixed, IH.
  reflexivity.
Qed.

(** C7: column-name normalization is idempotent:
    normalize(normalize(c)) = normalize(c) for every column name c. *)
Theorem normalize_name_idempotent (col : string) :
  normalize_name (normalize_name col) = normalize_name col.
Proof. exact (normalize_name_fixed col). Qed.

(** The same, for the headers of a list of data frames. *)
Lemma clean_column_names_idempotent (headers : list (list string)) :
  clean_column_names (clean_column_names headers) = clean_column_names headers.
Proof.
  unfold clean_column_names. rewrite map_map.
  apply map_ext. intros columns. rewrite map_map.
  apply map_ext. intros col. apply normalize_name_fixed.
Qed.

(** ** Persistence: primary keys *)









(** ** Date Parser: the three formats exclude one another *)

Lemma is_digit_field (c : ascii) : is_digit c = true -> field_char c = true.
Proof. unfold field_char. now intros ->. Qed.

Lemma eqb_digit_field (d c : ascii) :
  is_digit d = true -> Ascii.eqb d c = true -> field_char c = true.
Proof.
  intros Hd He. apply Ascii.eqb_eq in He. subst c. now apply is_digit_field.
Qed.

Lemma in_range_digit_field (lo hi c : ascii) :
  is_digit lo = true -> is_digit hi = true ->
  in_range lo hi c = true -> field_char c = true.
Proof.
  unfold in_range, is_digit. intros Hlo Hhi Hc.
  apply is_digit_field. unfold is_digit.
  apply andb_true_iff in Hlo, Hhi, Hc.
  destruct Hlo as [Hlo _], Hhi as [_ Hhi], Hc as [H1 H2].
  apply Nat.leb_le in Hlo, Hhi, H1, H2.
  apply andb_true_iff; split; apply Nat.leb_le; lia.
Qed.

Ltac field_char_from H :=
  match type of H with
  | Ascii.eqb ?d _ = true => exact (eqb_digit_field d _ eq_refl H)
  | in_range ?lo ?hi _ = true =>
      exact (in_range_digit_field lo hi _ eq_refl eq_refl H)
  | is_digit _ = true => exact (is_digit_field _ H)
  end.

Lemma sat_inv (p : ascii -> bool) (s : string) (a : ascii) (t : string) :
  In (a, t) (sat p s) -> s = String a t /\ p a = true.
Proof.
  unfold sat. destruct s as [|c u]; [intros []|].
  destruct (p c) eqn:Hp; [|intros []].
  intros [H|[]]. inversion H; subst. auto.
Qed.

Lemma one_inv {A : Type} (p : ascii -> bool) (f : ascii -> A) s v t :
  In (v, t) (one p f s) -> exists a, s = String a t /\ p a = true.
Proof.
  unfold one. intros H. apply in_map_iff in H.
  destruct H as [[a u] [E H]]. inversion E; subst.
  exists a. now apply sat_inv.
Qed.

Lemma two_inv {A : Type} (p q : ascii -> bool) (f : ascii -> ascii -> A) s v t :
  In (v, t) (two p q f s) ->
  exists a b, s = String a (String b t) /\ p a = true /\ q b = true.
Proof.
  unfold two. intros H. apply in_flat_map in H.
  destruct H as [[a u] [Ha H]]. apply in_map_iff in H.
  destruct H as [[b w] [E Hb]]. inversion E; subst.
  apply sat_inv in Ha, Hb. destruct Ha as [-> Ha], Hb as [-> Hb].
  now exists a, b.
Qed.

Lemma consumed_one a t : field_char a = true -> consumed 1 (String a t) t.
Proof.
  intros Ha c u -> Hc. cbn [skip_field]. now rewrite Ha, Hc.
Qed.

Lemma consumed_two a b t :
  field_char a = true -> field_char b = true ->
  consumed 2 (String a (String b t)) t.
Proof.
  intros Ha Hb c u -> Hc. cbn [skip_field]. now rewrite Ha, Hb, Hc.
Qed.

Lemma re_m_consumed s v t :
  In (v, t) (re_m s) -> consumed 1 s t \/ consumed 2 s t.
Proof.
  unfold re_m, alt. intros H.
  repeat (apply in_app_or in H; destruct H as [H|H]).
  - apply two_inv in H. destruct H as (a & b & -> & Ha & Hb). right.
    apply consumed_two; [field_char_from Ha | field_char_from Hb].
  - apply two_inv in H. destruct H as (a & b & -> & Ha & Hb). right.
    apply consumed_two; [field_char_from Ha | field_char_from Hb].
  - apply one_inv in H. destruct H as (a & -> & Ha). left.
    apply consumed_one. field_char_from Ha.
Qed.

Lemma re_d_consumed s v t :
  In (v, t) (re_d s) -> consumed 1 s t \/ consumed 2 s t.
Proof.
  unfold re_d, alt. intros H.
  repeat (apply in_app_or in H; destruct H as [H|H]).
  - apply two_inv in H. destruct H as (a & b & -> & Ha & Hb). right.
    apply consumed_two; [field_char_from Ha | field_char_from Hb].
  - apply two_inv in H. destruct H as (a & b & -> & Ha & Hb). right.
    apply consumed_two; [field_char_from Ha | field_char_from Hb].
  - apply two_inv in H. destruct H as (a & b & -> & Ha & Hb). right.
    apply consumed_two; [field_char_from Ha | field_char_from Hb].
  - apply one_inv in H. destruct H as (a & -> & Ha). left.
    apply consumed_one. field_char_from Ha.
  - apply two_inv in H. destruct H as (a & b & -> & Ha & Hb). right.
    apply consumed_two; [|field_char_from Hb].
    apply Ascii.eqb_eq in Ha. now subst a.
Qed.

Lemma re_Y_consumed s v t : In (v, t) (re_Y s) -> consumed 4 s t.
Proof.
  unfold re_Y, re_y. intros H. apply in_flat_map in H.
  destruct H as [[hi u] [H1 H2]]. apply in_map_iff in H2.
  destruct H2 as [[lo w] [E H2]]. inversion E; subst.
  apply two_inv in H1, H2.
  destruct H1 as (a & b & -> & Ha & Hb), H2 as (c & d & -> & Hc & Hd).
  intros e x -> He. cbn [skip_field].
  now rewrite (is_digit_field _ Ha), (is_digit_field _ Hb),
    (is_digit_field _ Hc), (is_digit_field _ Hd), He.
Qed.

Lemma lit_inv c acc s acc' t :
  In (acc', t) (match_directive (Lit c) acc s) -> s = String c t.
Proof.
  cbn [match_directive]. intros H. apply in_map_iff in H.
  destruct H as [[a u] [E H]]. inversion E; subst.
  apply sat_inv in H. destruct H as [-> H].
  apply Ascii.eqb_eq in H. now subst.
Qed.

(** A successful parse went through some success of the first
    directive and, from there, through the rest of the format. *)
Lemma match_directives_cons d ds acc s found rest :
  In (found, rest) (match_directives (d :: ds) acc s) ->
  exists acc' t, In (acc', t) (match_directive d acc s)
                 /\ In (found, rest) (match_directives ds acc' t).
Proof.
  cbn [match_directives]. intros H. apply in_flat_map in H.
  destruct H as [[acc' t] [H1 H2]]. now exists acc', t.
Qed.

Lemma strptime_ok_matches s fmt d :
  strptime s fmt = Ok d ->
  exists ds found,
    compile_format fmt = Some ds
    /\ In (found, EmptyString) (match_directives ds no_fields s).
Proof.
  unfold strptime. destruct (compile_format fmt) as [ds|]; [|discriminate].
  destruct (match_directives ds no_fields s) as [|[found rest] l] eqn:E;
    [discriminate|].
  destruct rest; [|discriminate].
  intros _. exists ds, found. split; [reflexivity | rewrite E; apply in_eq].
Qed.

(** The shape of a text each format accepts: the first separator and
    the number of characters before it. *)
Lemma slash_format_shape s d :
  strptime s "%m/%d/%y" = Ok d ->
  exists n t, skip_field s = (n, String "/" t).
Proof.
  intros H. apply strptime_ok_matches in H.
  destruct H as (ds & found & Hc & H). vm_compute in Hc. inversion Hc; subst ds.
  apply match_directives_cons in H. destruct H as (acc1 & t1 & H1 & H).
  apply match_directives_cons in H. destruct H as (acc2 & t2 & H2 & _).
  apply lit_inv in H2. subst t1.
  cbn [match_directive] in H1. apply in_map_iff in H1.
  destruct H1 as [[v u] [E H1]]. inversion E; subst.
  apply re_m_consumed in H1.
  destruct H1 as [H1|H1]; eexists _, _; eapply H1; reflexivity.
Qed.

Lemma month_name_format_shape s d :
  strptime s "%d-%b-%y" = Ok d ->
  exists n t, skip_field s = (n, String "-" t) /\ (n <= 2)%nat.
Proof.
  intros H. apply strptime_ok_matches in H.
  destruct H as (ds & found & Hc & H). vm_compute in Hc. inversion Hc; subst ds.
  apply match_directives_cons in H. destruct H as (acc1 & t1 & H1 & H).
  apply match_directives_cons in H. destruct H as (acc2 & t2 & H2 & _).
  apply lit_inv in H2. subst t1.
  cbn [match_directive] in H1. apply in_map_iff in H1.
  destruct H1 as [[v u] [E H1]]. inversion E; subst.
  apply re_d_consumed in H1.
  destruct H1 as [H1|H1]; eexists _, _; (split; [eapply H1; reflexivity | lia]).
Qed.

Lemma iso_format_shape s d :
  strptime s "%Y-%m-%d" = Ok d ->
  exists t, skip_field s = (4%nat, String "-" t).
Proof.
  intros H. apply strptime_ok_matches in H.
  destruct H as (ds & found & Hc & H). vm_compute in Hc. inversion Hc; subst ds.
  apply match_directives_cons in H. destruct H as (acc1 & t1 & H1 & H).
  apply match_directives_cons in H. destruct H as (acc2 & t2 & H2 & _).
  apply lit_inv in H2. subst t1.
  cbn [match_directive] in H1. apply in_map_iff in H1.
  destruct H1 as [[v u] [E H1]]. inversion E; subst.
  apply re_Y_consumed in H1.
  eexists. eapply H1; reflexivity.
Qed.

(** No text is accepted by two different formats of the list. *)
Lemma formats_exclusive s f1 f2 d1 d2 :
  In f1 DATE_FORMATS -> In f2 DATE_FORMATS ->
  strptime s f1 = Ok d1 -> strptime s f2 = Ok d2 -> f1 = f2.
Proof.
  unfold DATE_FORMATS. cbn [In].
  intros [<-|[<-|[<-|[]]]] [<-|[<-|[<-|[]]]] H1 H2; try reflexivity; exfalso.
  - apply slash_format_shape in H1. apply month_name_format_shape in H2.
    destruct H1 as (n & t & E1), H2 as (m & u & E2 & _). congruence.
  - apply slash_format_shape in H1. apply iso_format_shape in H2.
    destruct H1 as (n & t & E1), H2 as (u & E2). congruence.
  - apply month_name_format_shape in H1. apply slash_format_shape in H2.
    destruct H1 as (n & t & E1 & _), H2 as (m & u & E2). congruence.
  - apply month_name_format_shape in H1. apply iso_format_shape in H2.
    destruct H1 as (n & t & E1 & Hn), H2 as (u & E2).
    rewrite E1 in E2. inversion E2. lia.
  - apply iso_format_shape in H1. apply slash_format_shape in H2.
    destruct H1 as (t & E1), H2 as (m & u & E2). congruence.
  - apply iso_format_shape in H1. apply month_name_format_shape in H2.
    destruct H1 as (t & E1), H2 as (m & u & E2 & Hm).
    rewrite E1 in E2. inversion E2. lia.
Qed.

(** C5: for every date string that matches at least one of the three
    configured formats, the calendar date is the same whichever
    matching format is tried: no string is parsed to two different
    dates by two of the formats. *)
Theorem formats_agree (s f1 f2 : string) (d1 d2 : datetime) :
  In f1 DATE_FORMATS -> In f2 DATE_FORMATS ->
  strptime s f1 = Ok d1 -> strptime s f2 = Ok d2 ->
  calendar_date d1 = calendar_date d2.
Proof.
  intros I1 I2 H1 H2.
  pose proof (formats_exclusive s f1 f2 d1 d2 I1 I2 H1 H2) as E. subst f2.
  rewrite H1 in H2. now inversion H2.
Qed.

Lemma formats_agree_witness :
  calendar_date (mkdatetime 2006 6 2 0) = calendar_date (mkdatetime 2006 6 2 0).
Proof.
  apply (formats_agree "2-Jun-06" "%d-%b-%y" "%d-%b-%y");
    [apply in_cons, in_eq | apply in_cons, in_eq
    | vm_compute; reflexivity | vm_compute; reflexivity].
Defined.

(** ** Date Parser: no exception leaves [parse_date] *)

Section DateParser.

Context {RT : PyRuntime}.

(** [strptime] fails with ValueError only. *)
Lemma strptime_raises (s fmt : string) (e : exn) :
  strptime s fmt = Raise e -> e = ValueError.
Proof.
  unfold strptime, make_datetime.
  repeat match goal with
         | |- context [match ?x with _ => _ end] => destruct x
         end; intros H; inversion H; reflexivity.
Qed.

Lemma try_formats_returns (s : string) (formats : list string) :
  exists v, try_formats s formats = Ok v /\ (v = NA \/ exists d, v = Date d).
Proof.
  induction formats as [|fmt rest IH]; cbn [try_formats].
  - destruct (to_datetime s) as [d|]; eexists; split; eauto.
  - destruct (strptime s fmt) as [d|e] eqn:E.
    + eexists; split; eauto.
    + apply strptime_raises in E. subst e. exact IH.
Qed.

Lemma try_formats_unparsable (s : string) (formats : list string) :
  (forall fmt d, In fmt formats -> strptime s fmt <> Ok d) ->
  to_datetime s = None ->
  try_formats s formats = Ok NA.
Proof.
  intros Hf Hp. induction formats as [|fmt rest IH]; cbn [try_formats].
  - now rewrite Hp.
  - destruct (strptime s fmt) as [d|e] eqn:E.
    + exfalso. apply (Hf fmt d); [apply in_eq | exact E].
    + apply strptime_raises in E. subst e. apply IH.
      intros f d Hin. apply Hf. now apply in_cons.
Qed.

(** C4: parse_date is total and never raises, whatever the input: it
    returns a value, absent or a date; the value is absent for an absent
    input, for the empty string, for the sentinels "Pre-PQ Process" and
    "Date Not Captured", and for any string that, trimmed, matches none
    of the three configured formats and is refused by the permissive
    fallback parser. *)
Theorem parse_date_total (date_str : cell) :
  (exists v, parse_date date_str = Ok v /\ (v = NA \/ exists d, v = Date d))
  /\ (isna date_str = true -> parse_date date_str = Ok NA)
  /\ (In date_str [Str ""; Str "Pre-PQ Process"; Str "Date Not Captured"] ->
      parse_date date_str = Ok NA)
  /\ (forall s, date_str = Str s ->
        (forall fmt d, In fmt DATE_FORMATS -> strptime (strip s) fmt <> Ok d) ->
        to_datetime (strip s) = None ->
        parse_date date_str = Ok NA).
Proof.
  repeat split.
  - unfold parse_date.
    destruct (isna date_str || is_sentinel date_str).
    + exists NA. auto.
    + apply try_formats_returns.
  - intros H. unfold parse_date. now rewrite H.
  - cbn [In]. intros [<-|[<-|[<-|[]]]]; reflexivity.
  - intros s -> Hf Hp. unfold parse_date.
    destruct (isna (Str s) || is_sentinel (Str s)); [reflexivity|].
    cbn [py_str]. now apply try_formats_unparsable.
Qed.

End DateParser.

Lemma parse_date_total_witness :
  parse_date (Str "Weight Captured Separately") = Ok NA.
Proof.
  apply (proj2 (proj2 (proj2 (parse_date_total (Str "Weight Captured Separately"))))
           "Weight Captured Separately" eq_refl).
  - intros fmt d [<-|[<-|[<-|[]]]]; vm_compute; discriminate.
  - vm_compute; reflexivity.
Defined.

(** ** Reference Resolver *)

Section Resolver.

Context {RT : PyRuntime}.

Lemma digit_not_colon (c : ascii) : is_digit c = true -> Ascii.eqb c ":" = false.
Proof.
  intros H. destruct (Ascii.eqb_spec c ":") as [->|]; [|reflexivity].
  vm_compute in H. discriminate.
Qed.

Lemma remove_colon_digits (t : string) :
  remove_char ":" (take_digits t) = take_digits t.
Proof.
  induction t as [|c t IH]; cbn [take_digits remove_char]; [reflexivity|].
  destruct (is_digit c) eqn:Hd; cbn [remove_char]; [|reflexivity].
  now rewrite (digit_not_colon c Hd), IH.
Qed.

Lemma digits_value_take (t : string) (acc : Z) :
  exists n, digits_value acc (take_digits t) = Some n.
Proof.
  revert acc. induction t as [|c t IH]; intros acc; cbn [take_digits].
  - now exists acc.
  - destruct (is_digit c) eqn:Hd; cbn [digits_value].
    + rewrite Hd. apply IH.
    + now exists acc.
Qed.

(** What [re.match] returns is a colon and a non-empty run of digits. *)
Lemma re_match_id_shape (s m : string) :
  re_match_id s = Some m ->
  exists t, m = String ":" (take_digits t) /\ take_digits t <> EmptyString.
Proof.
  unfold re_match_id. destruct s as [|c t]; [discriminate|].
  destruct (Ascii.eqb c ":"); [|discriminate].
  destruct (take_digits t) as [|d ds] eqn:E; [discriminate|].
  intros H. inversion H; subst. exists t. rewrite E. split; congruence.
Qed.

Lemma re_search_id_shape (s m : string) :
  re_search_id s = Some m ->
  exists t, m = String ":" (take_digits t) /\ take_digits t <> EmptyString.
Proof.
  induction s as [|c t IH]; cbn [re_search_id].
  - cbn. discriminate.
  - destruct (re_match_id (String c t)) as [m'|] eqn:E.
    + intros H. inversion H; subst. now apply re_match_id_shape in E.
    + exact IH.
Qed.

(** The pattern at the start is the leftmost occurrence. *)
Lemma re_match_is_search (s m : string) :
  re_match_id s = Some m -> re_search_id s = Some m.
Proof.
  intros H. destruct s as [|c t]; cbn [re_search_id]; now rewrite H.
Qed.

(** The digits of an occurrence always read as an integer. *)
Lemma py_int_of_match (m : string) :
  (exists t, m = String ":" (take_digits t) /\ take_digits t <> EmptyString) ->
  exists n, py_int (remove_char ":" m) = Ok n.
Proof.
  intros (t & -> & Hne). cbn [remove_char].
  rewrite Ascii.eqb_refl, remove_colon_digits.
  unfold py_int. destruct (take_digits t) as [|d ds] eqn:E; [congruence|].
  rewrite <- E. destruct (digits_value_take t 0) as [n Hn].
  rewrite Hn. now exists n.
Qed.

Lemma reference_id_of_search (s m : string) :
  re_search_id s = Some m -> exists n, reference_id s = Some n.
Proof.
  intros H. unfold reference_id. rewrite H.
  destruct (py_int_of_match m (re_search_id_shape s m H)) as [n Hn].
  rewrite Hn. now exists n.
Qed.

Lemma loc_id_absent (dataset : list row) (n : Z) (c : column) :
  (forall r, In r dataset -> id r <> n) -> loc_id dataset n c = [].
Proof.
  intros H. unfold loc_id. induction dataset as [|r rest IH]; [reflexivity|].
  cbn [filter]. destruct (Z.eqb_spec (id r) n) as [E|_].
  - exfalso. apply (H r); [apply in_eq | exact E].
  - apply IH. intros r' Hr'. apply H. now apply in_cons.
Qed.

(** The early return is taken exactly by the values that are not text
    and by the texts that do not start with the pattern. *)
Lemma returns_early_iff (value : cell) :
  returns_early value = true <->
  is_str value = false \/ exists s, value = Str s /\ re_match_id s = None.
Proof.
  destruct value as [| z | x | s | d]; cbn [returns_early is_str];
    try (split; [now left | reflexivity]).
  destruct (re_match_id s) as [m|] eqn:E; split; intros H.
  - discriminate.
  - destruct H as [H|(s' & Hs & H)]; [discriminate|].
    inversion Hs; subst. congruence.
  - right. now exists s.
  - reflexivity.
Qed.

(** The function returns a value on every input. *)
Lemma resolve_id_reference_returns (value : cell) (dataset : list row) (c : column) :
  exists v, resolve_id_reference value dataset c = Ok v.
Proof.
  unfold resolve_id_reference.
  destruct (returns_early value) eqn:He; [now exists value|].
  destruct value as [| z | x | s | d]; try discriminate He.
  cbn [returns_early] in He.
  destruct (re_match_id s) as [m|] eqn:Em; [|discriminate].
  cbn [reference_id_str]. rewrite (re_match_is_search s m Em). cbn [bind].
  destruct (py_int_of_match m (re_match_id_shape s m Em)) as [n Hn].
  rewrite Hn. cbn [bind].
  destruct (loc_id dataset n c) as [|v rest]; cbn [iloc0 catch]; eauto.
Qed.

(** C6: for every text containing the reference pattern whose
    identifier is the id of no row of the record set,
    resolve_id_reference returns the text unchanged and raises nothing;
    so does ":999" against a set without a row of id 999. *)
Theorem resolve_miss (s : string) (n : Z) (dataset : list row) (c : column) :
  reference_id s = Some n ->
  (forall r, In r dataset -> id r <> n) ->
  resolve_id_reference (Str s) dataset c = Ok (Str s).
Proof.
  intros Hid Hmiss. unfold resolve_id_reference.
  destruct (returns_early (Str s)) eqn:He; [reflexivity|].
  cbn [returns_early] in He.
  destruct (re_match_id s) as [m|] eqn:Em; [|discriminate].
  unfold reference_id in Hid.
  cbn [reference_id_str]. rewrite (re_match_is_search s m Em) in *. cbn [bind].
  destruct (py_int (remove_char ":" m)) as [k|e]; [|discriminate].
  inversion Hid; subst k. cbn [bind].
  now rewrite (loc_id_absent dataset n c Hmiss).
Qed.

End Resolver.

(** ** Step 5: how the resolved columns are cast *)

Section Coercion.

Context {RT : PyRuntime}.

Lemma mapM_returns {A B : Type} (f : A -> result B) (l : list A) :
  (forall a, exists b, f a = Ok b) -> exists bs, mapM f l = Ok bs.
Proof.
  intros Hf. induction l as [|a rest [bs IH]]; cbn [mapM].
  - now exists [].
  - destruct (Hf a) as [b Hb]. rewrite Hb, IH. cbn [bind]. now eexists.
Qed.

Lemma mapM_length {A B : Type} (f : A -> result B) (l : list A) (bs : list B) :
  mapM f l = Ok bs -> List.length bs = List.length l.
Proof.
  revert bs. induction l as [|a rest IH]; cbn [mapM]; intros bs H.
  - inversion H. reflexivity.
  - destruct (f a) as [b|e]; [|discriminate]. cbn [bind] in H.
    destruct (mapM f rest) as [bs'|e]; [|discriminate]. cbn [bind] in H.
    inversion H; subst. cbn [List.length]. now rewrite (IH bs' eq_refl).
Qed.

(** The cast raises ValueError or TypeError only. *)
Lemma py_float_raises (v : cell) (e : exn) :
  py_float v = Raise e -> handles_cast e = true.
Proof.
  destruct v as [| z | x | s | d]; cbn [py_float]; try discriminate.
  - destruct (float_of_string s) as [[x|]|]; try discriminate.
    intros H. inversion H. reflexivity.
  - intros H. inversion H. reflexivity.
Qed.

Lemma mapM_py_float (series : list cell) :
  if forallb casts series
  then mapM py_float series = Ok (map coerce_value series)
  else exists e, mapM py_float series = Raise e /\ handles_cast e = true.
Proof.
  induction series as [|v rest IH]; cbn [forallb mapM map]; [reflexivity|].
  unfold casts at 1, coerce_value at 1.
  destruct (py_float v) as [x|e] eqn:E; cbn [andb bind].
  - destruct (forallb casts rest).
    + rewrite IH. reflexivity.
    + destruct IH as (e & -> & He). exists e. auto.
  - exists e. split; [reflexivity | now apply py_float_raises in E].
Qed.

(** The cast is of the whole column or of none of it. *)
Lemma astype_float_ignore_spec (series : list cell) :
  astype_float_ignore series
  = if forallb casts series then map coerce_value series else series.
Proof.
  unfold astype_float_ignore. pose proof (mapM_py_float series) as H.
  destruct (forallb casts series).
  - now rewrite H.
  - destruct H as (e & -> & He). cbn [catch]. now rewrite He.
Qed.

Lemma astype_float_ignore_length (series : list cell) :
  List.length (astype_float_ignore series) = List.length series.
Proof.
  rewrite astype_float_ignore_spec.
  destruct (forallb casts series); [apply length_map | reflexivity].
Qed.

Lemma column_values_assign (c : reference_column) (values : list cell) (df : list row) :
  List.length values = List.length df ->
  column_values (column_of c) (assign c values df) = values.
Proof.
  unfold column_values, assign. revert values.
  induction df as [|r rest IH]; intros [|v values] H; try discriminate;
    [reflexivity|].
  cbn [combine map]. rewrite IH by (cbn in H; lia).
  now destruct c.
Qed.

(** An assignment leaves the other columns of every row as they were. *)
Lemma assign_other (c : reference_column) (k : column)
  (values : list cell) (df : list row) :
  List.length values = List.length df ->
  k <> column_of c ->
  column_values k (assign c values df) = column_values k df.
Proof.
  unfold column_values, assign. revert values.
  induction df as [|r rest IH]; intros [|v values] H Hk; try discriminate;
    [reflexivity|].
  cbn [combine map]. rewrite IH by (cbn in H; lia || exact Hk).
  f_equal. destruct c, k; try reflexivity; now elim Hk.
Qed.

Lemma assign_length (c : reference_column) (values : list cell) (df : list row) :
  List.length values = List.length df ->
  List.length (assign c values df) = List.length df.
Proof.
  intros H. unfold assign. rewrite length_map, length_combine. lia.
Qed.

Lemma resolved_values_returns (df : list row) (c : reference_column) :
  exists resolved, resolved_values df c = Ok resolved
                   /\ List.length resolved = List.length df.
Proof.
  unfold resolved_values.
  destruct (mapM_returns
              (fun x => resolve_id_reference (astype_str x) df (column_of c))
              (column_values (column_of c) df)) as [bs H].
  - intros a. apply resolve_id_reference_returns.
  - exists bs. split; [exact H|].
    apply mapM_length in H. unfold column_values in H.
    now rewrite length_map in H.
Qed.

(** Step 5 unfolded: both columns are resolved against the frame as it
    was before the loop, cast as a whole and assigned. *)
Lemma resolve_references_spec (df : list row) :
  exists rf rw,
    resolved_values df FreightCostUsd = Ok rf
    /\ resolved_values df WeightKilograms = Ok rw
    /\ resolve_references df
       = Ok (assign WeightKilograms (astype_float_ignore rw)
               (assign FreightCostUsd (astype_float_ignore rf) df)).
Proof.
  destruct (resolved_values_returns df FreightCostUsd) as (rf & Hf & Lf).
  destruct (resolved_values_returns df WeightKilograms) as (rw & Hw & Lw).
  exists rf, rw. repeat split; [exact Hf | exact Hw |].
  unfold resolve_references. cbn [fold_left bind].
  change (resolve_column df df FreightCostUsd)
    with (resolved <- resolved_values df FreightCostUsd;;
          Ok (astype_float_ignore resolved)).
  rewrite Hf. cbn [bind].
  unfold resolve_column.
  rewrite (assign_other FreightCostUsd (column_of WeightKilograms));
    [| now rewrite astype_float_ignore_length | discriminate].
  change (mapM _ (column_values (column_of WeightKilograms) df))
    with (resolved_values df WeightKilograms).
  rewrite Hw. reflexivity.
Qed.

(** C3 (amended): in the resolution step the numeric coercion is per
    column: for each of freight_cost_usd and weight_kilograms, if every
    resolved value of the column casts, every value becomes a number;
    if the cast of any value fails, the whole column is left as it was
    after resolution, the values that would cast included. *)
Theorem coercion_per_column (df : list row) (c : reference_column) :
  exists resolved df',
    resolved_values df c = Ok resolved
    /\ resolve_references df = Ok df'
    /\ column_values (column_of c) df'
       = if forallb casts resolved then map coerce_value resolved else resolved.
Proof.
  destruct (resolve_references_spec df) as (rf & rw & Hf & Hw & H).
  pose proof (resolved_values_returns df FreightCostUsd) as (rf' & Hf' & Lf).
  pose proof (resolved_values_returns df WeightKilograms) as (rw' & Hw' & Lw).
  rewrite Hf in Hf'. rewrite Hw in Hw'. inversion Hf'; inversion Hw'; subst rf' rw'.
  destruct c.
  - exists rf. eexists. repeat split; [exact Hf | exact H |].
    rewrite assign_other;
      [| rewrite astype_float_ignore_length, assign_length;
         [lia | now rewrite astype_float_ignore_length]
       | discriminate].
    rewrite column_values_assign by now rewrite astype_float_ignore_length.
    apply astype_float_ignore_spec.
  - exists rw. eexists. repeat split; [exact Hw | exact H |].
    rewrite column_values_assign.
    + apply astype_float_ignore_spec.
    + rewrite astype_float_ignore_length, assign_length;
        [lia | now rewrite astype_float_ignore_length].
Qed.

End Coercion.

(** ** Dimension Extractor: one table *)

Section DimensionFacts.

Context {K : Type} (K_eq_dec : forall x y : K, {x = y} + {x <> y}).

Lemma mem_iff (k : K) (l : list K) : mem K_eq_dec k l = true <-> In k l.
Proof.
  unfold mem. destruct (in_dec K_eq_dec k l); split; auto; discriminate.
Qed.

Lemma drop_duplicates_from_In (seen keys : list K) (k : K) :
  In k (drop_duplicates_from K_eq_dec seen keys) <-> In k keys /\ ~ In k seen.
Proof.
  revert seen. induction keys as [|x rest IH]; intros seen;
    cbn [drop_duplicates_from].
  - cbn. tauto.
  - destruct (mem K_eq_dec x seen) eqn:E.
    + apply mem_iff in E. rewrite IH. cbn [In].
      split; [tauto|]. intros [[->|H] Hn]; tauto.
    + assert (~ In x seen) as Hx by (rewrite <- mem_iff; congruence).
      cbn [In]. rewrite IH. cbn [In].
      destruct (K_eq_dec x k) as [->|Hne]; tauto.
Qed.

Lemma drop_duplicates_from_NoDup (seen keys : list K) :
  NoDup (drop_duplicates_from K_eq_dec seen keys).
Proof.
  revert seen. induction keys as [|x rest IH]; intros seen;
    cbn [drop_duplicates_from].
  - constructor.
  - destruct (mem K_eq_dec x seen); [apply IH|].
    constructor; [|apply IH].
    rewrite drop_duplicates_from_In. cbn [In]. tauto.
Qed.

Lemma first_index_In (k : K) (keys : list K) :
  In k keys -> exists i, first_index K_eq_dec k keys = Some i.
Proof.
  induction keys as [|x rest IH]; [intros []|].
  intros H. cbn [first_index]. destruct (K_eq_dec x k) as [|Hne]; [eauto|].
  destruct IH as [i ->]; [destruct H; [contradiction | assumption] | eauto].
Qed.

(** Below a new first row the order of the other keys is kept. *)
Lemma appears_before_cons (x a b : K) (keys : list K) :
  a <> x -> b <> x ->
  appears_before K_eq_dec keys a b ->
  appears_before K_eq_dec (x :: keys) a b.
Proof.
  unfold appears_before. cbn [first_index]. intros Ha Hb.
  destruct (K_eq_dec x a) as [->|_]; [contradiction|].
  destruct (K_eq_dec x b) as [->|_]; [contradiction|].
  destruct (first_index K_eq_dec a keys), (first_index K_eq_dec b keys);
    auto; lia.
Qed.

Lemma appears_before_head (x b : K) (keys : list K) :
  b <> x -> In b keys -> appears_before K_eq_dec (x :: keys) x b.
Proof.
  unfold appears_before. cbn [first_index]. intros Hb Hin.
  destruct (K_eq_dec x x) as [_|N]; [|contradiction].
  destruct (K_eq_dec x b) as [->|_]; [contradiction|].
  destruct (first_index_In b keys Hin) as [i ->]. lia.
Qed.

Lemma drop_duplicates_from_sorted (seen keys : list K) :
  StronglySorted (appears_before K_eq_dec keys)
                 (drop_duplicates_from K_eq_dec seen keys).
Proof.
  revert seen. induction keys as [|x rest IH]; intros seen;
    cbn [drop_duplicates_from]; [constructor|].
  assert (forall seen',
             In x seen' ->
             StronglySorted (appears_before K_eq_dec (x :: rest))
                            (drop_duplicates_from K_eq_dec seen' rest)) as Lift.
  { intros seen' Hx. specialize (IH seen').
    assert (Forall (fun k => k <> x) (drop_duplicates_from K_eq_dec seen' rest))
      as Hne.
    { apply Forall_forall. intros k Hk. apply drop_duplicates_from_In in Hk.
      intros ->. tauto. }
    induction IH as [|k l Hs IH' Hf]; [constructor|].
    inversion Hne as [|? ? Hk Hl]; subst.
    constructor; [now apply IH'|].
    rewrite Forall_forall in *. intros b Hb.
    apply appears_before_cons; auto. }
  destruct (mem K_eq_dec x seen) eqn:E.
  - apply Lift. now apply mem_iff.
  - constructor; [apply Lift, in_eq|].
    apply Forall_forall. intros b Hb. apply drop_duplicates_from_In in Hb.
    destruct Hb as [Hin Hn]. apply appears_before_head; [|exact Hin].
    intros ->. apply Hn, in_eq.
Qed.

Lemma StronglySorted_nth_error {A : Type} (R : A -> A -> Prop) (l : list A) :
  StronglySorted R l ->
  forall i j a b, (i < j)%nat ->
                  nth_error l i = Some a -> nth_error l j = Some b -> R a b.
Proof.
  induction 1 as [|x l Hs IH Hf]; intros i j a b Hij Hi Hj.
  - destruct i; discriminate.
  - destruct j as [|j]; [lia|]. cbn [nth_error] in Hj.
    destruct i as [|i]; cbn [nth_error] in Hi.
    + inversion Hi; subst. rewrite Forall_forall in Hf.
      apply Hf. eapply nth_error_In; eauto.
    + apply (IH i j); auto; lia.
Qed.

Lemma add_ids_fst (keys : list K) : map fst (add_ids keys) = keys.
Proof.
  unfold add_ids. generalize 0%nat.
  induction keys as [|k rest IH]; intros n; cbn; [reflexivity|].
  now rewrite IH.
Qed.

Lemma add_ids_length (keys : list K) :
  List.length (add_ids keys) = List.length keys.
Proof. rewrite <- (add_ids_fst keys) at 2. now rewrite length_map. Qed.

Lemma add_ids_snd (keys : list K) :
  map snd (add_ids keys) = map Z.of_nat (seq 1 (List.length (add_ids keys))).
Proof.
  rewrite add_ids_length. unfold add_ids. generalize 0%nat.
  induction keys as [|k rest IH]; intros n; cbn [List.length seq map combine];
    [reflexivity|].
  cbn [snd]. rewrite IH. f_equal. lia.
Qed.

(** The number of distinct keys, counted two ways. *)
Lemma drop_duplicates_length (keys : list K) :
  List.length (drop_duplicates K_eq_dec keys)
  = List.length (nodup K_eq_dec keys).
Proof.
  apply Permutation_length, NoDup_Permutation.
  - apply drop_duplicates_from_NoDup.
  - apply NoDup_nodup.
  - intros k. unfold drop_duplicates.
    rewrite drop_duplicates_from_In, nodup_In. cbn. tauto.
Qed.

Lemma dimension_numbers_distinct_keys (keys : list K) :
  numbers_distinct_keys K_eq_dec keys (dimension K_eq_dec keys).
Proof.
  unfold numbers_distinct_keys, dimension.
  rewrite add_ids_fst, add_ids_length.
  repeat split.
  - apply drop_duplicates_length.
  - rewrite <- (add_ids_length (drop_duplicates K_eq_dec keys)).
    apply add_ids_snd.
  - apply drop_duplicates_from_NoDup.
  - unfold drop_duplicates. rewrite drop_duplicates_from_In. tauto.
  - unfold drop_duplicates. rewrite drop_duplicates_from_In. cbn. tauto.
  - intros i j a b Hij Hi Hj.
    eapply (StronglySorted_nth_error _ _ (drop_duplicates_from_sorted [] keys));
      eauto.
Qed.

End DimensionFacts.

(** ** Dimension Extractor: the join *)

Section MergeFacts.

Context {K : Type} (K_eq_dec : forall x y : K, {x = y} + {x <> y}).

Lemma dimension_id_none (table : list (K * Z)) (k : K) :
  ~ In k (map fst table) -> dimension_id K_eq_dec table k = None.
Proof.
  induction table as [|[k' i] rest IH]; cbn [dimension_id map fst In];
    [reflexivity|].
  intros H. destruct (K_eq_dec k' k); [tauto|]. apply IH. tauto.
Qed.

(** In a table without repeated keys a key matches at most one row: the
    one that gives its identifier. *)
Lemma matches_unique (table : list (K * Z)) (k : K) :
  NoDup (map fst table) ->
  filter (fun d => if K_eq_dec (fst d) k then true else false) table
  = match dimension_id K_eq_dec table k with
    | Some i => [(k, i)]
    | None => []
    end.
Proof.
  induction table as [|[k' i] rest IH]; cbn [filter dimension_id map fst];
    [reflexivity|].
  intros H. inversion H as [|? ? Hn Hr]; subst.
  destruct (K_eq_dec k' k) as [->|Hne].
  - f_equal. rewrite (IH Hr), (dimension_id_none rest k Hn). reflexivity.
  - apply IH, Hr.
Qed.

Lemma merge_left_unique {R : Type} (left : list R) (key : R -> K)
  (table : list (K * Z)) :
  NoDup (map fst table) ->
  merge_left K_eq_dec left key table
  = map (fun r => (r, dimension_id K_eq_dec table (key r))) left.
Proof.
  intros H. unfold merge_left.
  induction left as [|r rest IH]; [reflexivity|].
  change (flat_map ?f (r :: rest)) with (f r ++ flat_map f rest)%list.
  cbn beta. rewrite IH, (matches_unique table (key r) H).
  cbn [map]. destruct (dimension_id K_eq_dec table (key r)); reflexivity.
Qed.

Lemma dimension_id_In (table : list (K * Z)) (k : K) (i : Z) :
  dimension_id K_eq_dec table k = Some i -> In (k, i) table.
Proof.
  induction table as [|[k' j] rest IH]; cbn [dimension_id]; [discriminate|].
  destruct (K_eq_dec k' k) as [->|_].
  - intros H. inversion H. apply in_eq.
  - intros H. now apply in_cons, IH.
Qed.

Lemma dimension_id_some (table : list (K * Z)) (k : K) :
  In k (map fst table) -> exists i, dimension_id K_eq_dec table k = Some i.
Proof.
  induction table as [|[k' j] rest IH]; cbn [dimension_id map fst In];
    [intros []|].
  intros H. destruct (K_eq_dec k' k) as [|Hne]; [eauto|].
  apply IH. tauto.
Qed.

(** Every key of the frame has an identifier in its own dimension. *)
Lemma dimension_covers (keys : list K) (k : K) :
  In k keys ->
  exists i, dimension_id K_eq_dec (dimension K_eq_dec keys) k = Some i
            /\ In (k, i) (dimension K_eq_dec keys).
Proof.
  intros H.
  destruct (dimension_numbers_distinct_keys K_eq_dec keys)
    as (_ & _ & _ & Hin & _).
  destruct (dimension_id_some (dimension K_eq_dec keys) k) as [i Hi].
  - now apply Hin.
  - exists i. split; [exact Hi | now apply dimension_id_In].
Qed.

Lemma dimension_NoDup (keys : list K) :
  NoDup (map fst (dimension K_eq_dec keys)).
Proof. apply (dimension_numbers_distinct_keys K_eq_dec keys). Qed.

End MergeFacts.

(** ** Dimension Extractor: the four tables and the fact table *)

Section ExtractorFacts.

Context {RT : PyRuntime}.

(** C2: for every record set, in each of the four dimension tables of
    create_dimension_tables the number of surrogate keys is the number
    of distinct natural-key combinations of the input, the keys are
    1..n, and key k goes to the k-th distinct combination in order of
    first appearance. *)
Theorem dimension_tables_number_distinct_keys (df : list row) :
  let dims := snd (create_dimension_tables df) in
  numbers_distinct_keys cell_eq_dec (map country df) (countries dims)
  /\ numbers_distinct_keys cell_eq_dec (map vendor df) (vendors dims)
  /\ numbers_distinct_keys cell_eq_dec (map shipment_mode df) (transport_modes dims)
  /\ numbers_distinct_keys product_key_eq_dec (map product_key_of df) (products dims).
Proof.
  cbn [create_dimension_tables snd countries vendors transport_modes products].
  repeat split; apply dimension_numbers_distinct_keys.
Qed.

Lemma create_dimension_tables_fact (df : list row) :
  fst (create_dimension_tables df)
  = map (fact_of (snd (create_dimension_tables df))) df.
Proof.
  unfold create_dimension_tables. cbn [fst snd].
  rewrite !merge_left_unique by apply dimension_NoDup.
  rewrite !map_map. apply map_ext. intros r. reflexivity.
Qed.

(** C10: create_dimension_tables preserves the fact rows: the fact
    table has one row per input row, in the same order; each row keeps
    the identifier, the three dates and the numeric measures of its
    input row, and carries, in place of the categorical columns, the
    surrogate keys of its country, vendor, shipment mode and product. *)
Theorem fact_rows_preserved (df : list row) :
  let fact := fst (create_dimension_tables df) in
  let dims := snd (create_dimension_tables df) in
  List.length fact = List.length df
  /\ forall i r,
       nth_error df i = Some r ->
       exists f,
         nth_error fact i = Some f
         /\ delivery_id f = id r
         /\ fact_scheduled_delivery_date f = scheduled_delivery_date r
         /\ fact_delivered_to_client_date f = delivered_to_client_date r
         /\ fact_delivery_recorded_date f = delivery_recorded_date r
         /\ fact_line_item_quantity f = line_item_quantity r
         /\ fact_line_item_value f = line_item_value r
         /\ fact_unit_price f = unit_price r
         /\ fact_weight_kilograms f = weight_kilograms r
         /\ fact_freight_cost_usd f = freight_cost_usd r
         /\ fact_line_item_insurance_usd f = line_item_insurance_usd r
         /\ (exists k, country_id f = Some k /\ In (country r, k) (countries dims))
         /\ (exists k, vendor_id f = Some k /\ In (vendor r, k) (vendors dims))
         /\ (exists k, mode_id f = Some k
                       /\ In (shipment_mode r, k) (transport_modes dims))
         /\ (exists k, product_id f = Some k
                       /\ In (product_key_of r, k) (products dims)).
Proof.
  cbv zeta. rewrite create_dimension_tables_fact. split.
  - apply length_map.
  - intros i r Hr. exists (fact_of (snd (create_dimension_tables df)) r).
    split; [now rewrite nth_error_map, Hr|].
    apply nth_error_In in Hr.
    cbn [fact_of delivery_id fact_scheduled_delivery_date
         fact_delivered_to_client_date fact_delivery_recorded_date
         fact_line_item_quantity fact_line_item_value fact_unit_price
         fact_weight_kilograms fact_freight_cost_usd
         fact_line_item_insurance_usd country_id vendor_id mode_id product_id
         create_dimension_tables snd countries vendors transport_modes products].
    repeat (split; [reflexivity|]).
    repeat split; apply dimension_covers; now apply in_map.
Qed.

End ExtractorFacts.

(** ** Steps 5 to 7: which rows reach the fact table *)

Section Cleaning.

Context {RT : PyRuntime}.

Lemma assign_cleaning_view (c : reference_column) (values : list cell)
  (df : list row) :
  List.length values = List.length df ->
  map cleaning_view (assign c values df) = map cleaning_view df.
Proof.
  unfold assign. revert values.
  induction df as [|r rest IH]; intros [|v values] H; try discriminate;
    [reflexivity|].
  cbn [combine map]. rewrite IH by (cbn in H; lia).
  now destruct c.
Qed.

Lemma filter_same_view {A B C : Type} (view : A -> B) (keep : B -> bool)
  (out : B -> C) (l l' : list A) :
  map view l = map view l' ->
  map (fun a => out (view a)) (filter (fun a => keep (view a)) l)
  = map (fun a => out (view a)) (filter (fun a => keep (view a)) l').
Proof.
  revert l'. induction l as [|a rest IH]; intros [|a' rest'] H;
    try discriminate; [reflexivity|].
  cbn [map] in H. inversion H as [[Ha Hr]].
  cbn [filter]. rewrite Ha.
  destruct (keep (view a')); cbn [map]; rewrite ?Ha; now rewrite (IH rest' Hr).
Qed.

Lemma resolve_references_cleaning_view (df df' : list row) :
  resolve_references df = Ok df' ->
  map cleaning_view df' = map cleaning_view df.
Proof.
  destruct (resolve_references_spec df) as (rf & rw & Hf & Hw & H).
  rewrite H. intros E. inversion E; subst df'.
  pose proof (resolved_values_returns df FreightCostUsd) as (rf' & Hf' & Lf).
  pose proof (resolved_values_returns df WeightKilograms) as (rw' & Hw' & Lw).
  rewrite Hf in Hf'. rewrite Hw in Hw'. inversion Hf'; inversion Hw'; subst rf' rw'.
  rewrite !assign_cleaning_view; try reflexivity;
    rewrite ?astype_float_ignore_length, ?assign_length;
    rewrite ?astype_float_ignore_length; lia.
Qed.

(** C9: in the cleaning step of the main pipeline a row is excluded
    from the final fact table if and only if its shipment_mode or its
    line_item_insurance_usd is missing: the pipeline returns, and the
    rows of its fact table are, in order, the rows of the frame in
    which both values are present. *)
Theorem fact_table_keeps_complete_rows (df : list row) :
  exists fact dims,
    main_transform df = Ok (fact, dims)
    /\ map delivery_id fact = map id (filter complete df)
    /\ forall r, In r (filter complete df) <->
                 In r df /\ isna (shipment_mode r) = false
                 /\ isna (line_item_insurance_usd r) = false.
Proof.
  destruct (resolve_references_spec df) as (rf & rw & _ & _ & H).
  unfold main_transform. rewrite H. cbn [bind].
  set (df' := assign WeightKilograms _ _) in *.
  exists (fst (create_dimension_tables (dropna df'))),
         (snd (create_dimension_tables (dropna df'))).
  split; [now rewrite <- surjective_pairing|]. split.
  - rewrite create_dimension_tables_fact, map_map. cbn [fact_of delivery_id].
    unfold dropna.
    apply (filter_same_view cleaning_view
             (fun v => negb (isna (snd (fst v))) && negb (isna (snd v)))
             (fun v => fst (fst v))).
    now apply resolve_references_cleaning_view.
  - intros r. rewrite filter_In. unfold complete.
    rewrite andb_true_iff, !negb_true_iff. tauto.
Qed.

End Cleaning.

(** ** The model evaluated on the sample frame *)

(** C1: a text that holds the reference pattern after other characters
    is returned unchanged without any lookup, although the pattern is
    found in it by [re.search] and the row it names exists; the same
    reference at the start of the text is resolved. *)
Theorem reference_inside_text_not_resolved :
  re_search_id "See ASN-93 (ID#:1281)" = Some ":1281"
  /\ reference_id "See ASN-93 (ID#:1281)" = Some 1281
  /\ loc_id sample_frame 1281 WEIGHT_KILOGRAMS = [Str "358"]
  /\ returns_early (Str "See ASN-93 (ID#:1281)") = true
  /\ resolve_id_reference (Str "See ASN-93 (ID#:1281)") sample_frame WEIGHT_KILOGRAMS
     = Ok (Str "See ASN-93 (ID#:1281)")
  /\ resolve_id_reference (Str ":1281") sample_frame WEIGHT_KILOGRAMS
     = Ok (Str "358").
Proof. repeat split; reflexivity. Qed.

Lemma resolve_miss_witness :
  resolve_id_reference (Str ":999") sample_frame WEIGHT_KILOGRAMS = Ok (Str ":999").
Proof.
  apply (resolve_miss ":999" 999 sample_frame WEIGHT_KILOGRAMS).
  - reflexivity.
  - intros r [<-|[<-|[<-|[<-|[]]]]]; cbn [sample_row id]; discriminate.
Defined.

(** C3, as stated, fails on the sample frame: "4521.5" casts, and it is
    still text after the resolution step, because another value of the
    freight column does not cast. *)
Lemma coercion_not_per_value : ~ coercion_per_value sample_frame FreightCostUsd.
Proof.
  intros H.
  assert (exists df',
             resolve_references sample_frame = Ok df'
             /\ column_values (column_of FreightCostUsd) df'
                = [Str "4521.5"; Str "Freight Included in Commodity Cost";
                   Str ":999"; Str "Invoiced Separately"])
    as (df' & E & C) by (eexists; split; reflexivity).
  specialize (H [Str "4521.5"; Str "Freight Included in Commodity Cost";
                 Str ":999"; Str "Invoiced Separately"] df' eq_refl E).
  rewrite C in H. cbn in H. discriminate H.
Qed.

Lemma fact_rows_preserved_witness :
  exists f,
    nth_error (fst (create_dimension_tables sample_frame)) 0 = Some f
    /\ delivery_id f = 1281
    /\ fact_line_item_insurance_usd f = Float (mkdecimal 4704 2).
Proof.
  destruct (proj2 (fact_rows_preserved sample_frame) 0%nat _ eq_refl)
    as (f & H1 & H2 & _ & _ & _ & _ & _ & _ & _ & _ & H3 & _).
  exists f. repeat split; assumption.
Defined.

(** The transport modes of the sample frame after cleaning: Air, then
    Truck, numbered 1 and 2, and the fact rows carry these numbers. *)
Example sample_transport_modes :
  exists fact dims,
    main_transform sample_frame = Ok (fact, dims)
    /\ transport_modes dims = [(Str "Air", 1); (Str "Truck", 2)]
    /\ map (fun f => (delivery_id f, mode_id f)) fact
       = [(1281, Some 1); (1282, Some 2)].
Proof. eexists _, _. repeat split; reflexivity. Qed.

(** The example of the specification: a reference at the start of the
    text is replaced by the value of the row it names. *)
Example sample_resolution :
  resolve_id_reference (Str ":100")
    [sample_row 100 NA NA NA (Float (mkdecimal 2505 1)) NA NA] WEIGHT_KILOGRAMS
  = Ok (Float (mkdecimal 2505 1)).
Proof. reflexivity. Qed.

(* ===================================================================== *)
(** * Part III: further properties of the code                            *)
(* ===================================================================== *)

(** ** Column Normalizer: what a normalized name is made of *)

Lemma list_ascii_app (s1 s2 : string) :
  list_ascii_of_string (s1 ++ s2)
  = (list_ascii_of_string s1 ++ list_ascii_of_string s2)%list.
Proof.
  induction s1 as [|c t IH]; cbn; [reflexivity | now rewrite IH].
Qed.

Lemma normalize_char_kept (a c : ascii) :
  In c (list_ascii_of_string (normalize_name (String a EmptyString))) ->
  kept_char c = true.
Proof.
  intros H.
  destruct a as [[] [] [] [] [] [] [] []]; vm_compute in H;
    repeat (destruct H as [H|H]; [subst c; reflexivity|]);
    exact (False_ind _ H).
Qed.

Lemma normalize_name_kept (col : string) (c : ascii) :
  In c (list_ascii_of_string (normalize_name col)) -> kept_char c = true.
Proof.
  induction col as [|a t IH]; [intros []|].
  change (String a t) with (String a EmptyString ++ t).
  rewrite normalize_name_app, list_ascii_app. intros H.
  apply in_app_or in H. destruct H as [H|H];
    [now apply (normalize_char_kept a) | now apply IH].
Qed.

Lemma kept_char_unchanged (c : ascii) :
  kept_char c = true ->
  normalize_name (String c EmptyString) = String c EmptyString.
Proof.
  unfold kept_char, normalize_name. cbn [lower translate].
  intros H. apply andb_true_iff in H. destruct H as [Hu Ht].
  unfold lower_char. apply negb_true_iff in Hu. rewrite Hu.
  unfold translate_char.
  destruct (table_get transformations c); [discriminate | reflexivity].
Qed.

(** X1: a normalized column name holds no upper-case letter and none of
    the characters of the transformation table. *)
Theorem normalize_name_alphabet (col : string) (c : ascii) :
  In c (list_ascii_of_string (normalize_name col)) ->
  is_upper c = false /\ table_get transformations c = None.
Proof.
  intros H. apply normalize_name_kept in H. unfold kept_char in H.
  apply andb_true_iff in H. destruct H as [Hu Ht].
  apply negb_true_iff in Hu. split; [exact Hu|].
  destruct (table_get transformations c); [discriminate | reflexivity].
Qed.

Lemma normalize_name_alphabet_witness :
  is_upper "_" = false /\ table_get transformations "_" = None.
Proof.
  apply (normalize_name_alphabet "Line Item Insurance (USD)" "_").
  vm_compute. tauto.
Defined.

(** X2: the names the normalization leaves unchanged are exactly those
    without upper-case letters and without characters of the table. *)
Theorem normalize_name_unchanged_iff (col : string) :
  normalize_name col = col <->
  forall c, In c (list_ascii_of_string col) -> kept_char c = true.
Proof.
  split.
  - intros E c Hc. rewrite <- E in Hc. now apply normalize_name_kept in Hc.
  - induction col as [|a t IH]; intros H; [reflexivity|].
    change (String a t) with (String a EmptyString ++ t).
    rewrite normalize_name_app, kept_char_unchanged, IH; [reflexivity | |].
    + intros c Hc. apply H. cbn. now right.
    + apply H. cbn. now left.
Qed.

(** ** Date columns *)

Lemma prefix_iff (a s : string) :
  prefix a s = true <-> exists q, s = a ++ q.
Proof.
  revert s. induction a as [|c a IH]; intros s.
  - split; [intros _; now exists s | intros _; now destruct s].
  - destruct s as [|d s]; cbn [prefix].
    + split; [discriminate | intros [q H]; discriminate].
    + destruct (ascii_dec c d) as [->|Hne].
      * rewrite IH. split; intros [q H]; exists q.
        -- now rewrite H.
        -- now inversion H.
      * split; [discriminate|]. intros [q H]. inversion H. congruence.
Qed.

Lemma contains_iff (sub s : string) :
  contains sub s = true <-> exists p q, s = p ++ sub ++ q.
Proof.
  induction s as [|c t IH]; cbn [contains].
  - rewrite orb_false_r, prefix_iff. split.
    + intros [q H]. now exists EmptyString, q.
    + intros (p & q & H). destruct p; [now exists q | discriminate].
  - rewrite orb_true_iff, prefix_iff, IH. split.
    + intros [[q H]|(p & q & H)].
      * now exists EmptyString, q.
      * exists (String c p), q. now rewrite H.
    + intros (p & q & H). destruct p as [|d p].
      * left. now exists q.
      * right. inversion H. now exists p, q.
Qed.

Lemma lower_normalize_name (col : string) :
  lower (normalize_name col) = normalize_name col.
Proof.
  assert (forall s, (forall c, In c (list_ascii_of_string s) -> kept_char c = true) ->
                    lower s = s) as L.
  { induction s as [|a t IH]; intros H; [reflexivity|]. cbn [lower].
    rewrite IH by (intros c Hc; apply H; cbn; now right).
    assert (kept_char a = true) as Ha by (apply H; cbn; now left).
    unfold kept_char in Ha. apply andb_true_iff in Ha. destruct Ha as [Hu _].
    apply negb_true_iff in Hu. unfold lower_char. now rewrite Hu. }
  apply L. intros c. apply normalize_name_kept.
Qed.

(** X3: the normalization does not hide a date column: a name in which
    find_date_columns sees "date" before clean_column_names still
    has it afterwards. *)
Theorem date_column_survives_normalization (columns : list string) (col : string) :
  In col (find_date_columns columns) ->
  In (normalize_name col) (find_date_columns (map normalize_name columns)).
Proof.
  unfold find_date_columns. rewrite !filter_In. intros [Hin Hd].
  split; [now apply in_map|].
  unfold is_date_column in *. rewrite lower_normalize_name.
  apply contains_iff in Hd. destruct Hd as (p & q & E).
  apply contains_iff.
  exists (translate transformations p), (translate transformations q).
  unfold normalize_name. rewrite E, !translate_app. reflexivity.
Qed.

Lemma date_column_survives_normalization_witness :
  In (normalize_name "Scheduled Delivery Date")
     (find_date_columns (map normalize_name sample_header)).
Proof.
  apply (date_column_survives_normalization sample_header "Scheduled Delivery Date").
  vm_compute. tauto.
Defined.

(** ** Date Parser: what a successful parse returns *)

Lemma make_datetime_ok (y m d : Z) (dt : datetime) :
  make_datetime y m d = Ok dt ->
  dt = mkdatetime y m d 0
  /\ 1 <= y <= 9999 /\ 1 <= m <= 12 /\ 1 <= d <= days_in_month y m.
Proof.
  unfold make_datetime.
  destruct ((1 <=? y) && (y <=? 9999) && (1 <=? m) && (m <=? 12)
            && (1 <=? d) && (d <=? days_in_month y m))%Z eqn:E; [|discriminate].
  intros H. inversion H; subst.
  repeat (apply andb_true_iff in E; destruct E as [E ?]).
  repeat match goal with
         | H : (_ <=? _)%Z = true |- _ => apply Z.leb_le in H
         end.
  repeat split; first [reflexivity | assumption].
Qed.

Lemma strptime_ok_inv (s fmt : string) (dt : datetime) :
  strptime s fmt = Ok dt ->
  exists ds found,
    compile_format fmt = Some ds
    /\ In (found, EmptyString) (match_directives ds no_fields s)
    /\ make_datetime (default (f_year found) 1900) (default (f_month found) 1)
                     (default (f_day found) 1) = Ok dt.
Proof.
  unfold strptime. destruct (compile_format fmt) as [ds|]; [|discriminate].
  destruct (match_directives ds no_fields s) as [|[found rest] l] eqn:E;
    [discriminate|].
  destruct rest; [|discriminate].
  intros H. exists ds, found.
  split; [reflexivity|]. split; [rewrite E; apply in_eq | exact H].
Qed.

Lemma digit_val_range (c : ascii) : is_digit c = true -> 0 <= digit_val c <= 9.
Proof.
  unfold is_digit, digit_val. intros H. apply andb_true_iff in H.
  destruct H as [H1 H2]. apply Nat.leb_le in H1, H2. lia.
Qed.

Lemma re_y_range (s : string) (v : Z) (t : string) :
  In (v, t) (re_y s) -> 0 <= v <= 99.
Proof.
  unfold re_y, two. intros H. apply in_flat_map in H.
  destruct H as [[a u] [Ha H]]. apply in_map_iff in H.
  destruct H as [[b w] [E Hb]]. inversion E; subst.
  apply sat_inv in Ha, Hb. destruct Ha as [_ Ha], Hb as [_ Hb].
  apply digit_val_range in Ha, Hb. unfold two_digits. lia.
Qed.

(** The year after one directive: set by %y through the pivot, kept by
    the directives that are not about the year. *)
Lemma match_directive_year (d : directive) (acc : fields) (s : string)
  (acc' : fields) (t : string) :
  In (acc', t) (match_directive d acc s) ->
  match d with
  | D_y => exists v, 0 <= v <= 99 /\ f_year acc' = Some (pivot_year v)
  | D_Y => True
  | _ => f_year acc' = f_year acc
  end.
Proof.
  destruct d; cbn [match_directive]; intros H; apply in_map_iff in H;
    destruct H as [[v u] [E H]]; inversion E; subst; cbn [f_year];
    try reflexivity; try exact I.
  exists v. split; [now apply re_y_range in H | reflexivity].
Qed.

Lemma pivot_year_range (v : Z) : 0 <= v <= 99 -> 1969 <= pivot_year v <= 2068.
Proof. unfold pivot_year. intros H. destruct (Z.leb_spec v 68); lia. Qed.

(** In a format that ends with %y after four directives that leave the
    year alone, the year found is the pivot of two digits. *)
Lemma two_digit_year (d1 d2 d3 d4 : directive) (s : string) (found : fields)
  (rest : string) :
  (forall d, In d [d1; d2; d3; d4] -> d <> D_y /\ d <> D_Y) ->
  In (found, rest) (match_directives [d1; d2; d3; d4; D_y] no_fields s) ->
  exists v, 0 <= v <= 99 /\ f_year found = Some (pivot_year v).
Proof.
  intros Hd H.
  apply match_directives_cons in H. destruct H as (a1 & t1 & H1 & H).
  apply match_directives_cons in H. destruct H as (a2 & t2 & H2 & H).
  apply match_directives_cons in H. destruct H as (a3 & t3 & H3 & H).
  apply match_directives_cons in H. destruct H as (a4 & t4 & H4 & H).
  apply match_directives_cons in H. destruct H as (a5 & t5 & H5 & H).
  cbn [match_directives] in H. destruct H as [H|[]]. inversion H; subst.
  now apply match_directive_year in H5.
Qed.

(** X4: what strptime returns for the configured formats is a date of
    the calendar at midnight, and with the two formats that carry a
    two-digit year the year lies between 1969 and 2068. *)
Theorem strptime_calendar (s fmt : string) (dt : datetime) :
  In fmt DATE_FORMATS ->
  strptime s fmt = Ok dt ->
  time_of_day dt = 0
  /\ 1 <= month dt <= 12
  /\ 1 <= day dt <= days_in_month (year dt) (month dt)
  /\ 1 <= year dt <= 9999
  /\ (fmt <> "%Y-%m-%d" -> 1969 <= year dt <= 2068).
Proof.
  intros Hf H. apply strptime_ok_inv in H.
  destruct H as (ds & found & Hc & Hin & Hm).
  apply make_datetime_ok in Hm. destruct Hm as (-> & Hy & Hmo & Hd).
  cbn [time_of_day month day year].
  repeat (split; [first [reflexivity | assumption]|]).
  intros Hne. unfold DATE_FORMATS in Hf. cbn [In] in Hf.
  destruct Hf as [<-|[<-|[<-|[]]]]; [| |congruence];
    vm_compute in Hc; inversion Hc; subst ds;
    apply two_digit_year in Hin;
    try (intros d [<-|[<-|[<-|[<-|[]]]]]; split; discriminate);
    destruct Hin as (v & Hv & ->); cbn [default];
    now apply pivot_year_range.
Qed.

Lemma strptime_calendar_witness :
  time_of_day (mkdatetime 1970 12 31 0) = 0
  /\ 1 <= month (mkdatetime 1970 12 31 0) <= 12
  /\ 1 <= day (mkdatetime 1970 12 31 0)
     <= days_in_month (year (mkdatetime 1970 12 31 0))
                      (month (mkdatetime 1970 12 31 0))
  /\ 1 <= year (mkdatetime 1970 12 31 0) <= 9999
  /\ ("%m/%d/%y" <> "%Y-%m-%d" -> 1969 <= year (mkdatetime 1970 12 31 0) <= 2068).
Proof.
  apply (strptime_calendar "12/31/70" "%m/%d/%y");
    [apply in_eq | vm_compute; reflexivity].
Defined.

Section DateParserMore.

Context {RT : PyRuntime}.

Lemma try_formats_first_match (s : string) (formats : list string)
  (fmt : string) (d : datetime) :
  (forall f, In f formats -> In f DATE_FORMATS) ->
  In fmt formats -> In fmt DATE_FORMATS ->
  strptime s fmt = Ok d ->
  try_formats s formats = Ok (Date d).
Proof.
  intros Hsub Hin Hf Hd.
  induction formats as [|f rest IH]; [destruct Hin|].
  cbn [try_formats]. destruct (strptime s f) as [d'|e] eqn:E.
  - assert (f = fmt) as ->
        by (eapply formats_exclusive; eauto; apply Hsub, in_eq).
    congruence.
  - pose proof (strptime_raises s f e E) as He. subst e.
    destruct Hin as [->|Hin]; [congruence|].
    apply IH; [|exact Hin]. intros f' Hf'. apply Hsub. now apply in_cons.
Qed.

Lemma sentinel_cases (s : string) :
  is_sentinel (Str s) = true -> In s date_sentinels.
Proof.
  unfold is_sentinel, date_sentinels. cbn [existsb In].
  repeat match goal with
         | |- context [String.eqb s ?x] => destruct (String.eqb_spec s x)
         end; auto; discriminate.
Qed.

(** X5: a text that, trimmed, matches one of the configured formats is
    parsed by that format: the result of parse_date is its date,
    whatever the order of the formats and whatever the fallback parser
    would say. *)
Theorem parse_date_matching_format (s fmt : string) (d : datetime) :
  In fmt DATE_FORMATS ->
  strptime (strip s) fmt = Ok d ->
  parse_date (Str s) = Ok (Date d).
Proof.
  intros Hf Hd. unfold parse_date. cbn [isna orb py_str].
  destruct (is_sentinel (Str s)) eqn:Hs.
  - exfalso. apply sentinel_cases in Hs. unfold date_sentinels in Hs.
    unfold DATE_FORMATS in Hf. cbn [In] in Hs, Hf.
    destruct Hs as [<-|[<-|[<-|[]]]]; destruct Hf as [<-|[<-|[<-|[]]]];
      vm_compute in Hd; discriminate.
  - eapply try_formats_first_match; eauto.
Qed.

End DateParserMore.

Lemma parse_date_matching_format_witness :
  parse_date (Str " 2-Jun-06 ") = Ok (Date (mkdatetime 2006 6 2 0)).
Proof.
  apply (parse_date_matching_format " 2-Jun-06 " "%d-%b-%y");
    [apply in_cons, in_eq | vm_compute; reflexivity].
Defined.

(** ** Date columns of a frame ([convert_date_columns]) *)

Lemma Forall2_compose {A B C : Type} (R1 : A -> B -> Prop) (R2 : B -> C -> Prop)
  (R3 : A -> C -> Prop) (l1 : list A) (l2 : list B) (l3 : list C) :
  (forall a b c, R1 a b -> R2 b c -> R3 a c) ->
  Forall2 R1 l1 l2 -> Forall2 R2 l2 l3 -> Forall2 R3 l1 l3.
Proof.
  intros H H1. revert l3. induction H1 as [|a b l1 l2 Hab H1 IH]; intros l3 H2.
  - inversion H2. constructor.
  - inversion H2; subst. constructor; [eapply H; eauto | now apply IH].
Qed.

Lemma Forall2_impl_In {A B : Type} (R R' : A -> B -> Prop) (l : list A)
  (l' : list B) :
  (forall a b, In a l -> R a b -> R' a b) ->
  Forall2 R l l' -> Forall2 R' l l'.
Proof.
  intros H H2. induction H2 as [|a b l l' Hab H2 IH]; constructor.
  - apply H; [apply in_eq | exact Hab].
  - apply IH. intros a' b' Hin. apply H. now apply in_cons.
Qed.

Lemma mapM_Forall {A B : Type} (f : A -> result B) (P : B -> Prop)
  (l : list A) (bs : list B) :
  (forall a b, f a = Ok b -> P b) -> mapM f l = Ok bs -> Forall P bs.
Proof.
  intros Hf. revert bs. induction l as [|a rest IH]; cbn [mapM]; intros bs H.
  - inversion H. constructor.
  - destruct (f a) as [b|e] eqn:E; [|discriminate]. cbn [bind] in H.
    destruct (mapM f rest) as [bs'|e]; [|discriminate]. cbn [bind] in H.
    inversion H; subst. constructor; [now apply (Hf a) | now apply IH].
Qed.

Section DateColumnFacts.

Context {RT : PyRuntime}.

Lemma convert_date_cell_returns (c : cell) :
  exists v, convert_date_cell c = Ok v /\ absent_or_date v.
Proof.
  unfold convert_date_cell, parse_date, absent_or_date.
  destruct (isna (Str (strip (py_str c))) || is_sentinel (Str (strip (py_str c)))).
  - exists NA. auto.
  - apply try_formats_returns.
Qed.

Lemma convert_date_cell_absent_or_date (c v : cell) :
  convert_date_cell c = Ok v -> absent_or_date v.
Proof.
  intros H. destruct (convert_date_cell_returns c) as (v' & E & Hv). congruence.
Qed.

Lemma count_column_NoDup (col : string) (df : frame) :
  NoDup (frame_columns df) -> (count_column col df <= 1)%nat.
Proof.
  unfold count_column, frame_columns.
  induction df as [|[name series] rest IH]; cbn [map fst filter]; intros H;
    [cbn; lia|].
  inversion H as [|? ? Hn Hr]; subst.
  destruct (String.eqb_spec name col) as [->|_]; [|now apply IH].
  cbn [List.length].
  replace (filter (fun c => String.eqb (fst c) col) rest) with (@nil (string * list cell));
    [cbn; lia|].
  symmetry. clear IH H Hr. induction rest as [|[n s] rest IH]; [reflexivity|].
  cbn [filter fst]. cbn [map fst In] in Hn.
  destruct (String.eqb_spec n col) as [->|_]; [tauto | apply IH; tauto].
Qed.

(** One step of the loop, on a frame whose names are distinct. *)
Lemma convert_date_column_spec (col : string) (df : frame) :
  NoDup (frame_columns df) ->
  exists df',
    convert_date_column col df = Ok df'
    /\ Forall2 (fun c c' =>
                  fst c' = fst c
                  /\ if String.eqb (fst c) col
                     then mapM convert_date_cell (snd c) = Ok (snd c')
                     else snd c' = snd c) df df'.
Proof.
  intros Hn. unfold convert_date_column.
  pose proof (count_column_NoDup col df Hn) as Hc.
  destruct (Nat.ltb_spec 1 (count_column col df)) as [|_]; [lia|].
  clear Hn Hc. induction df as [|[name series] rest (df' & IH & HF)]; cbn [mapM].
  - exists []. split; [reflexivity | constructor].
  - rewrite IH. destruct (String.eqb name col) eqn:E.
    + destruct (mapM_returns convert_date_cell series) as [converted Hs].
      { intros a. destruct (convert_date_cell_returns a) as (v & Hv & _). eauto. }
      rewrite Hs. cbn [bind]. eexists. split; [reflexivity|].
      constructor; [|exact HF]. cbn [fst snd]. now rewrite E.
    + cbn [bind]. eexists. split; [reflexivity|].
      constructor; [|exact HF]. cbn [fst snd]. now rewrite E.
Qed.

Lemma Forall2_same_names (R : string * list cell -> string * list cell -> Prop)
  (df df' : frame) :
  (forall c c', R c c' -> fst c' = fst c) ->
  Forall2 R df df' -> frame_columns df' = frame_columns df.
Proof.
  intros H HF. unfold frame_columns.
  induction HF as [|c c' l l' Hc HF IH]; [reflexivity|].
  cbn [map]. now rewrite IH, (H c c' Hc).
Qed.

(** The loop over a list of distinct names converts exactly the columns
    named in the list, each once. *)
Lemma convert_columns_loop (cols : list string) (df : frame) :
  NoDup (frame_columns df) -> NoDup cols ->
  exists df',
    fold_left (fun acc col => df <- acc;; convert_date_column col df) cols (Ok df)
    = Ok df'
    /\ Forall2 (fun c c' =>
                  fst c' = fst c
                  /\ if mem string_dec (fst c) cols
                     then mapM convert_date_cell (snd c) = Ok (snd c')
                     else snd c' = snd c) df df'.
Proof.
  intros Hn Hc. revert df Hn.
  induction cols as [|col rest IH]; intros df Hn; cbn [fold_left].
  - exists df. split; [reflexivity|].
    clear Hn. induction df; constructor; auto.
    split; reflexivity.
  - inversion Hc as [|? ? Hcol Hrest]; subst.
    destruct (convert_date_column_spec col df Hn) as (df1 & E1 & F1).
    cbn [bind]. rewrite E1.
    assert (frame_columns df1 = frame_columns df) as Hnames
        by (eapply Forall2_same_names; [|exact F1]; intros c c' [H _]; exact H).
    destruct (IH Hrest df1) as (df' & E & F); [now rewrite Hnames|].
    exists df'. split; [exact E|].
    eapply Forall2_compose; [|exact F1|exact F].
    intros a b c [Hab1 Hab2] [Hbc1 Hbc2]. split; [congruence|].
    rewrite Hab1 in Hbc2. unfold mem in *.
    destruct (String.eqb_spec (fst a) col) as [Ea|Ea].
    + destruct (in_dec string_dec (fst a) (col :: rest)) as [_|N];
        [|exfalso; apply N; left; congruence].
      destruct (in_dec string_dec (fst a) rest) as [I|_];
        [exfalso; apply Hcol; congruence|].
      congruence.
    + destruct (in_dec string_dec (fst a) (col :: rest)) as [I|N];
        destruct (in_dec string_dec (fst a) rest) as [I'|N']; try congruence.
      * exfalso. destruct I as [I|I]; [congruence | contradiction].
      * exfalso. apply N. now right.
Qed.

(** X6: on a frame whose column names are distinct,
    convert_date_columns raises nothing and returns a frame with the
    same names in the same order; a column whose name does not hold
    "date" is unchanged, and in a column whose name does every value
    was sent through parse_date and is afterwards absent or a date. *)
Theorem convert_date_columns_spec (df : frame) :
  NoDup (frame_columns df) ->
  exists df',
    convert_date_columns df = Ok df'
    /\ Forall2 converted_column df df'
    /\ forall name series,
         In (name, series) df' -> is_date_column name = true ->
         Forall absent_or_date series.
Proof.
  intros Hn. unfold convert_date_columns.
  destruct (convert_columns_loop (find_date_columns (frame_columns df)) df Hn)
    as (df' & E & F).
  { unfold find_date_columns. now apply NoDup_filter. }
  assert (Forall2 converted_column df df') as FC.
  { eapply Forall2_impl_In; [|exact F].
    intros c c' Hin [H1 H2]. split; [exact H1|].
    unfold mem, find_date_columns in H2.
    destruct (in_dec string_dec (fst c) (filter is_date_column (frame_columns df)))
      as [I|N].
    - apply filter_In in I. destruct I as [_ I]. now rewrite I.
    - destruct (is_date_column (fst c)) eqn:D; [|exact H2].
      exfalso. apply N. apply filter_In. split; [|exact D].
      unfold frame_columns. now apply in_map. }
  exists df'. split; [exact E|]. split; [exact FC|].
  intros name series Hin Hd.
  clear E F. induction FC as [|c c' l l' [H1 H2] FC IH]; [destruct Hin|].
  destruct Hin as [->|Hin].
  - cbn [fst snd] in *. rewrite <- H1, Hd in H2.
    eapply mapM_Forall; [|exact H2]. apply convert_date_cell_absent_or_date.
  - apply IH; [|exact Hin]. now inversion Hn.
Qed.

Lemma lstrip_blank (pre s : string) :
  blank pre = true -> lstrip (pre ++ s) = lstrip s.
Proof.
  unfold blank. induction pre as [|c t IH]; cbn; [reflexivity|].
  intros H. apply andb_true_iff in H. destruct H as [Hc Ht].
  rewrite Hc. now apply IH.
Qed.

Lemma rstrip_blank (post : string) : blank post = true -> rstrip post = EmptyString.
Proof.
  unfold blank. induction post as [|c t IH]; cbn; [reflexivity|].
  intros H. apply andb_true_iff in H. destruct H as [Hc Ht].
  now rewrite (IH Ht), Hc.
Qed.

Lemma rstrip_append_blank (s post : string) :
  blank post = true -> rstrip (s ++ post) = rstrip s.
Proof.
  intros H. induction s as [|c t IH]; cbn [append rstrip].
  - now apply rstrip_blank.
  - now rewrite IH.
Qed.

(** X7: in a date column a sentinel is recognised with white space
    around it: the value is trimmed before parse_date compares it, so
    such a cell becomes absent without any parser being asked. *)
Theorem convert_date_cell_padded_sentinel (pre post sentinel : string) :
  In sentinel date_sentinels ->
  blank pre = true -> blank post = true ->
  convert_date_cell (Str (pre ++ sentinel ++ post)) = Ok NA.
Proof.
  intros Hs Hpre Hpost. unfold convert_date_cell. cbn [py_str].
  assert (strip (pre ++ sentinel ++ post) = sentinel) as ->.
  { unfold strip. rewrite (lstrip_blank pre _ Hpre).
    unfold date_sentinels in Hs. cbn [In] in Hs.
    destruct Hs as [<-|[<-|[<-|[]]]].
    - change (lstrip ("Pre-PQ Process" ++ post)) with ("Pre-PQ Process" ++ post).
      now rewrite (rstrip_append_blank _ post Hpost).
    - change (lstrip ("Date Not Captured" ++ post))
        with ("Date Not Captured" ++ post).
      now rewrite (rstrip_append_blank _ post Hpost).
    - cbn [append]. rewrite <- (append_empty_r post) at 1.
      rewrite (lstrip_blank post EmptyString Hpost). reflexivity. }
  unfold date_sentinels in Hs. cbn [In] in Hs.
  destruct Hs as [<-|[<-|[<-|[]]]]; reflexivity.
Qed.

End DateColumnFacts.

Lemma convert_date_columns_spec_witness :
  exists df',
    convert_date_columns sample_dates = Ok df'
    /\ Forall2 converted_column sample_dates df'
    /\ forall name series,
         In (name, series) df' -> is_date_column name = true ->
         Forall absent_or_date series.
Proof.
  apply (convert_date_columns_spec sample_dates).
  repeat constructor; cbn; intuition discriminate.
Defined.

Lemma convert_date_cell_padded_sentinel_witness :
  convert_date_cell (Str " Date Not Captured ") = Ok NA.
Proof.
  apply (convert_date_cell_padded_sentinel " " " " "Date Not Captured");
    [apply in_cons, in_eq | reflexivity | reflexivity].
Defined.

(** ** Reference Resolver: what a resolution returns *)

Section ResolverMore.

Context {RT : PyRuntime}.

Lemma filter_find {A : Type} (p : A -> bool) (l : list A) :
  match find p l with
  | Some a => exists rest, filter p l = a :: rest
  | None => filter p l = []
  end.
Proof.
  induction l as [|x rest IH]; cbn [find filter]; [reflexivity|].
  destruct (p x); [now exists (filter p rest) | exact IH].
Qed.

(** X8: a text that starts with the reference pattern, when some row
    has the identifier, is replaced by the value the first such row
    holds in the column, as it stands there: a value that is itself a
    reference is not followed. *)
Theorem resolve_hit (s m : string) (n : Z) (dataset : list row) (c : column)
  (r : row) :
  re_match_id s = Some m ->
  py_int (remove_char ":" m) = Ok n ->
  find (fun r => Z.eqb (id r) n) dataset = Some r ->
  resolve_id_reference (Str s) dataset c = Ok (get c r).
Proof.
  intros Hm Hn Hf. unfold resolve_id_reference.
  cbn [returns_early reference_id_str]. rewrite Hm.
  rewrite (re_match_is_search s m Hm). cbn [bind]. rewrite Hn. cbn [bind].
  unfold loc_id.
  pose proof (filter_find (fun r => Z.eqb (id r) n) dataset) as H.
  rewrite Hf in H. destruct H as [rest ->]. reflexivity.
Qed.

(** X9: resolve_id_reference raises nothing, and what it returns is the
    value it was given or a value of the requested column of the
    record set. *)
Theorem resolve_returns_value_or_cell (value : cell) (dataset : list row)
  (c : column) :
  exists v,
    resolve_id_reference value dataset c = Ok v
    /\ (v = value \/ In v (column_values c dataset)).
Proof.
  unfold resolve_id_reference.
  destruct (returns_early value) eqn:He; [exists value; auto|].
  destruct value as [| z | x | s | d]; try discriminate He.
  cbn [returns_early] in He.
  destruct (re_match_id s) as [m|] eqn:Em; [|discriminate].
  cbn [reference_id_str]. rewrite (re_match_is_search s m Em). cbn [bind].
  destruct (py_int_of_match m (re_match_id_shape s m Em)) as [n Hn].
  rewrite Hn. cbn [bind].
  destruct (loc_id dataset n c) as [|v rest] eqn:El; cbn [iloc0 catch];
    [eauto|].
  exists v. split; [reflexivity|]. right.
  assert (In v (loc_id dataset n c)) as Hin by (rewrite El; apply in_eq).
  unfold loc_id, column_values in *. apply in_map_iff in Hin.
  destruct Hin as (r & <- & Hr). apply filter_In in Hr.
  apply in_map. tauto.
Qed.

End ResolverMore.

Lemma resolve_hit_witness :
  resolve_id_reference (Str ":1282") sample_frame WEIGHT_KILOGRAMS
  = Ok (Str ":1281").
Proof.
  apply (resolve_hit ":1282" ":1282" 1282 sample_frame WEIGHT_KILOGRAMS
           (nth 1 sample_frame (sample_row 0 NA NA NA NA NA NA))); reflexivity.
Defined.

(** ** Step 5: what the resolution step changes *)

Section ResolutionStep.

Context {RT : PyRuntime}.

(** The column a resolved column becomes. *)
Lemma resolved_column (df : list row) (c : reference_column) :
  exists resolved df',
    resolved_values df c = Ok resolved
    /\ List.length resolved = List.length df
    /\ resolve_references df = Ok df'
    /\ List.length df' = List.length df
    /\ column_values (column_of c) df'
       = if forallb casts resolved then map coerce_value resolved else resolved.
Proof.
  destruct (resolve_references_spec df) as (rf & rw & Hf & Hw & H).
  pose proof (resolved_values_returns df FreightCostUsd) as (rf' & Hf' & Lf).
  pose proof (resolved_values_returns df WeightKilograms) as (rw' & Hw' & Lw).
  rewrite Hf in Hf'. rewrite Hw in Hw'. inversion Hf'; inversion Hw'; subst rf' rw'.
  assert (List.length (assign FreightCostUsd (astype_float_ignore rf) df)
          = List.length df) as L1
      by (apply assign_length; now rewrite astype_float_ignore_length).
  assert (List.length (assign WeightKilograms (astype_float_ignore rw)
                         (assign FreightCostUsd (astype_float_ignore rf) df))
          = List.length df) as L2
      by (rewrite assign_length; [exact L1|];
          now rewrite astype_float_ignore_length, L1).
  destruct c.
  - exists rf. eexists.
    split; [exact Hf|]. split; [exact Lf|]. split; [exact H|]. split; [exact L2|].
    rewrite assign_other;
      [| now rewrite astype_float_ignore_length, L1 | discriminate].
    rewrite column_values_assign by now rewrite astype_float_ignore_length.
    apply astype_float_ignore_spec.
  - exists rw. eexists.
    split; [exact Hw|]. split; [exact Lw|]. split; [exact H|]. split; [exact L2|].
    rewrite column_values_assign by now rewrite astype_float_ignore_length, L1.
    apply astype_float_ignore_spec.
Qed.

(** X10: the resolution step raises nothing, keeps the number of rows
    and leaves every column other than freight_cost_usd and
    weight_kilograms exactly as it was. *)
Theorem resolve_references_frame (df : list row) :
  exists df',
    resolve_references df = Ok df'
    /\ List.length df' = List.length df
    /\ forall k, k <> FREIGHT_COST_USD -> k <> WEIGHT_KILOGRAMS ->
                 column_values k df' = column_values k df.
Proof.
  destruct (resolve_references_spec df) as (rf & rw & Hf & Hw & H).
  pose proof (resolved_values_returns df FreightCostUsd) as (rf' & Hf' & Lf).
  pose proof (resolved_values_returns df WeightKilograms) as (rw' & Hw' & Lw).
  rewrite Hf in Hf'. rewrite Hw in Hw'. inversion Hf'; inversion Hw'; subst rf' rw'.
  assert (List.length (assign FreightCostUsd (astype_float_ignore rf) df)
          = List.length df) as L1
      by (apply assign_length; now rewrite astype_float_ignore_length).
  eexists. split; [exact H|]. split.
  - rewrite assign_length; [exact L1|].
    now rewrite astype_float_ignore_length, L1.
  - intros k Hk1 Hk2.
    rewrite assign_other;
      [| now rewrite astype_float_ignore_length, L1 | exact Hk2].
    apply assign_other; [now rewrite astype_float_ignore_length | exact Hk1].
Qed.

Lemma py_float_number (v x : cell) : py_float v = Ok x -> absent_or_number x.
Proof.
  unfold absent_or_number.
  destruct v as [| z | y | s | d]; cbn [py_float]; intros H;
    try (inversion H; subst; eauto; fail).
  destruct (float_of_string s) as [[y|]|]; inversion H; subst; eauto.
Qed.

(** X11: after the resolution step a resolved column is of one kind:
    if every resolved value casts, every value of the column is a
    number or missing. *)
Theorem resolved_column_numeric (df : list row) (c : reference_column)
  (rs : list cell) (out : list row) :
  resolved_values df c = Ok rs ->
  resolve_references df = Ok out ->
  forallb casts rs = true ->
  Forall absent_or_number (column_values (column_of c) out).
Proof.
  intros Hr Ho Hc.
  destruct (resolved_column df c) as (rs' & out' & Hr' & _ & Ho' & _ & E).
  rewrite Hr in Hr'. rewrite Ho in Ho'. inversion Hr'; inversion Ho'; subst.
  rewrite E, Hc. apply Forall_forall. intros v Hv.
  apply in_map_iff in Hv. destruct Hv as (w & <- & Hw).
  unfold coerce_value. destruct (py_float w) as [x|e] eqn:Ex.
  - now apply py_float_number in Ex.
  - rewrite forallb_forall in Hc. specialize (Hc w Hw).
    unfold casts in Hc. rewrite Ex in Hc. discriminate.
Qed.

End ResolutionStep.

Lemma resolve_references_frame_witness :
  exists df',
    resolve_references sample_frame = Ok df'
    /\ column_values COUNTRY df' = column_values COUNTRY sample_frame.
Proof.
  destruct (resolve_references_frame sample_frame) as (df' & H1 & _ & H3).
  exists df'. split; [exact H1 | apply H3; discriminate].
Defined.

Lemma resolved_column_numeric_witness :
  Forall absent_or_number
    (column_values WEIGHT_KILOGRAMS
       (assign WeightKilograms
          [Float (mkdecimal 358 0); Float (mkdecimal 358 0)]
          (assign FreightCostUsd
             [Float (mkdecimal 45215 1); Float (mkdecimal 12 0)] sample_numeric))).
Proof.
  apply (resolved_column_numeric sample_numeric WeightKilograms
           [Str "358"; Str "358"]); reflexivity.
Defined.

(** ** Dimension Extractor: keys and rows *)

Section DimensionMore.

Context {K : Type} (K_eq_dec : forall x y : K, {x = y} + {x <> y}).

Lemma NoDup_fst_functional (table : list (K * Z)) (k : K) (i j : Z) :
  NoDup (map fst table) -> In (k, i) table -> In (k, j) table -> i = j.
Proof.
  induction table as [|[k' v] rest IH]; [intros _ []|].
  cbn [map fst]. intros H Hi Hj. inversion H as [|? ? Hn Hr]; subst.
  destruct Hi as [Hi|Hi], Hj as [Hj|Hj].
  - congruence.
  - inversion Hi; subst. exfalso. apply Hn.
    change k with (fst (k, j)). now apply in_map.
  - inversion Hj; subst. exfalso. apply Hn.
    change k with (fst (k, i)). now apply in_map.
  - now apply IH.
Qed.

Lemma NoDup_snd_functional (table : list (K * Z)) (k k' : K) (i : Z) :
  NoDup (map snd table) -> In (k, i) table -> In (k', i) table -> k = k'.
Proof.
  induction table as [|[x v] rest IH]; [intros _ []|].
  cbn [map snd]. intros H Hi Hj. inversion H as [|? ? Hn Hr]; subst.
  destruct Hi as [Hi|Hi], Hj as [Hj|Hj].
  - congruence.
  - inversion Hi; subst. exfalso. apply Hn.
    change i with (snd (k', i)). now apply in_map.
  - inversion Hj; subst. exfalso. apply Hn.
    change i with (snd (k, i)). now apply in_map.
  - now apply IH.
Qed.

Lemma dimension_ids_NoDup (keys : list K) :
  NoDup (map snd (dimension K_eq_dec keys)).
Proof.
  destruct (dimension_numbers_distinct_keys K_eq_dec keys) as (_ & -> & _).
  apply Finite.Injective_map_NoDup; [|apply seq_NoDup].
  intros a b. apply Nat2Z.inj.
Qed.

(** X13: a dimension table pairs keys and identifiers one to one: two
    of its rows have the same natural key exactly when they have the
    same surrogate key. *)
Theorem dimension_one_to_one (keys : list K) (k k' : K) (i i' : Z) :
  In (k, i) (dimension K_eq_dec keys) ->
  In (k', i') (dimension K_eq_dec keys) ->
  (k = k' <-> i = i').
Proof.
  intros H H'. split; intros E; subst.
  - eapply NoDup_fst_functional; eauto. apply dimension_NoDup.
  - eapply NoDup_snd_functional; eauto. apply dimension_ids_NoDup.
Qed.

Lemma dimension_id_injective (keys : list K) (k k' : K) :
  In k keys -> In k' keys ->
  (dimension_id K_eq_dec (dimension K_eq_dec keys) k
   = dimension_id K_eq_dec (dimension K_eq_dec keys) k'
   <-> k = k').
Proof.
  intros H H'.
  destruct (dimension_covers K_eq_dec keys k H) as (i & Ei & Hi).
  destruct (dimension_covers K_eq_dec keys k' H') as (i' & Ei' & Hi').
  rewrite Ei, Ei'. split.
  - intros E. inversion E; subst.
    eapply NoDup_snd_functional; eauto. apply dimension_ids_NoDup.
  - intros E. subst. f_equal.
    eapply NoDup_fst_functional; eauto. apply dimension_NoDup.
Qed.

(** X14: the left join keeps every row of the left frame and says for
    each what the right table holds: a row comes out with an
    identifier exactly when the table pairs its key with it, and with
    a missing identifier exactly when its key is not in the table. *)
Theorem merge_left_rows {R : Type} (left : list R) (key : R -> K)
  (right : list (K * Z)) (r : R) (o : option Z) :
  In (r, o) (merge_left K_eq_dec left key right) <->
  In r left
  /\ match o with
     | Some i => In (key r, i) right
     | None => ~ In (key r) (map fst right)
     end.
Proof.
  unfold merge_left. rewrite in_flat_map.
  set (matches := fun r0 : R =>
         filter (fun d => if K_eq_dec (fst d) (key r0) then true else false) right).
  assert (forall r0 d, In d (matches r0) <-> In d right /\ fst d = key r0) as Hm.
  { intros r0 d. unfold matches. rewrite filter_In.
    destruct (K_eq_dec (fst d) (key r0)); intuition discriminate. }
  split.
  - intros (r0 & Hr0 & H). fold (matches r0) in H.
    destruct (matches r0) as [|d ds] eqn:E.
    + destruct H as [H|[]]. inversion H; subst. split; [exact Hr0|].
      intros Hin. apply in_map_iff in Hin. destruct Hin as (d & Hd & Hin).
      assert (In d (matches r)) as C by (apply Hm; auto).
      rewrite E in C. exact C.
    + apply in_map_iff in H. destruct H as (d' & Hd' & Hin).
      inversion Hd'; subst. split; [exact Hr0|].
      rewrite <- E in Hin. apply Hm in Hin. destruct Hin as [Hin Hk].
      rewrite <- Hk. now destruct d'.
  - intros [Hr H]. exists r. split; [exact Hr|]. fold (matches r).
    destruct o as [i|].
    + assert (In (key r, i) (matches r)) as C by (apply Hm; auto).
      destruct (matches r) as [|d ds]; [destruct C|].
      apply in_map_iff. exists (key r, i). auto.
    + destruct (matches r) as [|d ds] eqn:E; [now left|].
      exfalso. apply H.
      assert (In d (matches r)) as C by (rewrite E; apply in_eq).
      apply Hm in C. destruct C as [C1 C2]. rewrite <- C2. now apply in_map.
Qed.

Lemma drop_duplicates_from_app (seen l l' : list K) :
  exists seen',
    drop_duplicates_from K_eq_dec seen (l ++ l')
    = (drop_duplicates_from K_eq_dec seen l
       ++ drop_duplicates_from K_eq_dec seen' l')%list.
Proof.
  revert seen. induction l as [|x rest IH]; intros seen.
  - now exists seen.
  - cbn [app drop_duplicates_from]. destruct (mem K_eq_dec x seen).
    + apply IH.
    + destruct (IH (x :: seen)) as [seen' E]. exists seen'.
      now rewrite E.
Qed.

Lemma add_ids_app (a b : list K) :
  exists tail, add_ids (a ++ b) = (add_ids a ++ tail)%list.
Proof.
  unfold add_ids. generalize 0%nat.
  induction a as [|x rest IH]; intros n.
  - eexists. reflexivity.
  - cbn [app List.length seq map combine].
    destruct (IH (S n)) as [tail E]. exists tail. now rewrite E.
Qed.

(** X15: rows added after the others do not renumber them: the
    dimension of a longer input starts with the dimension of the
    shorter one. *)
Theorem dimension_prefix_stable (keys more : list K) :
  exists tail,
    dimension K_eq_dec (keys ++ more) = (dimension K_eq_dec keys ++ tail)%list.
Proof.
  unfold dimension, drop_duplicates.
  destruct (drop_duplicates_from_app [] keys more) as [seen' ->].
  apply add_ids_app.
Qed.



End DimensionMore.

Lemma dimension_one_to_one_witness : Str "Air" = Str "Air" <-> 1 = 1.
Proof.
  apply (dimension_one_to_one cell_eq_dec
           (map shipment_mode (dropna sample_frame))); apply in_eq.
Defined.


(** ** Fact table: what the surrogate keys say *)

Section FactKeys.

Context {RT : PyRuntime}.

(** X17: in the fact table two deliveries carry the same surrogate key
    exactly when their input rows carry the same natural key: the same
    country, vendor, shipment mode, or the same seven product
    columns. *)
Theorem surrogate_keys_faithful (df : list row) (i j : nat) (r1 r2 : row)
  (f1 f2 : delivery) :
  nth_error df i = Some r1 -> nth_error df j = Some r2 ->
  nth_error (fst (create_dimension_tables df)) i = Some f1 ->
  nth_error (fst (create_dimension_tables df)) j = Some f2 ->
  (country_id f1 = country_id f2 <-> country r1 = country r2)
  /\ (vendor_id f1 = vendor_id f2 <-> vendor r1 = vendor r2)
  /\ (mode_id f1 = mode_id f2 <-> shipment_mode r1 = shipment_mode r2)
  /\ (product_id f1 = product_id f2 <-> product_key_of r1 = product_key_of r2).
Proof.
  intros H1 H2. rewrite create_dimension_tables_fact, !nth_error_map, H1, H2.
  intros E1 E2. inversion E1; inversion E2; subst.
  apply nth_error_In in H1, H2.
  cbn [fact_of country_id vendor_id mode_id product_id
       create_dimension_tables snd countries vendors transport_modes products].
  repeat split; apply dimension_id_injective; now apply in_map.
Qed.

Lemma dropna_complete (df : list row) (r : row) :
  In r (dropna df) -> isna (shipment_mode r) = false.
Proof.
  unfold dropna, complete. rewrite filter_In, andb_true_iff, !negb_true_iff.
  tauto.
Qed.

(** X18: after the cleaning step no transport mode is nameless: the
    pipeline returns, every row of its transport_modes table has a
    name that is not missing, and every delivery points to one of
    them. *)
Theorem transport_modes_named (df : list row) :
  exists fact dims,
    main_transform df = Ok (fact, dims)
    /\ (forall name k, In (name, k) (transport_modes dims) -> isna name = false)
    /\ (forall f, In f fact ->
          exists name k, mode_id f = Some k
                         /\ In (name, k) (transport_modes dims)
                         /\ isna name = false).
Proof.
  destruct (resolve_references_spec df) as (rf & rw & _ & _ & H).
  unfold main_transform. rewrite H. cbn [bind].
  set (df' := assign WeightKilograms _ _) in *.
  exists (fst (create_dimension_tables (dropna df'))),
         (snd (create_dimension_tables (dropna df'))).
  split; [now rewrite <- surjective_pairing|].
  assert (forall name k,
             In (name, k) (transport_modes (snd (create_dimension_tables (dropna df')))) ->
             isna name = false) as Named.
  { intros name k Hin.
    cbn [create_dimension_tables snd transport_modes] in Hin.
    destruct (dimension_numbers_distinct_keys cell_eq_dec
                (map shipment_mode (dropna df'))) as (_ & _ & _ & Hk & _).
    assert (In name (map shipment_mode (dropna df'))) as Hn.
    { apply Hk. change name with (fst (name, k)). now apply in_map. }
    apply in_map_iff in Hn. destruct Hn as (r & <- & Hr).
    now apply dropna_complete in Hr. }
  split; [exact Named|].
  intros f Hf. rewrite create_dimension_tables_fact in Hf.
  apply in_map_iff in Hf. destruct Hf as (r & <- & Hr).
  destruct (dimension_covers cell_eq_dec (map shipment_mode (dropna df'))
              (shipment_mode r)) as (k & Ek & Hk); [now apply in_map|].
  exists (shipment_mode r), k. split; [exact Ek|]. split; [exact Hk|].
  now apply dropna_complete in Hr.
Qed.

End FactKeys.

Lemma surrogate_keys_faithful_witness :
  country_id (fact_of (snd (create_dimension_tables sample_frame))
                      (nth 0 sample_frame (sample_row 0 NA NA NA NA NA NA)))
  = country_id (fact_of (snd (create_dimension_tables sample_frame))
                        (nth 2 sample_frame (sample_row 0 NA NA NA NA NA NA))).
Proof.
  apply (proj1 (surrogate_keys_faithful sample_frame 0 2 _ _ _ _
                  eq_refl eq_refl eq_refl eq_refl)).
  reflexivity.
Defined.

Lemma transport_modes_named_witness :
  exists fact dims,
    main_transform sample_frame = Ok (fact, dims) /\ isna (Str "Air") = false.
Proof.
  destruct (transport_modes_named sample_frame) as (fact & dims & E & H & _).
  exists fact, dims. split; [exact E|].
  apply (H (Str "Air") 1).
  apply (f_equal (fun r => match r with
                           | Ok (_, d) => transport_modes d
                           | Raise _ => []
                           end)) in E.
  rewrite <- E. apply in_eq.
Defined.

(** ** Persistence: the keys of the tables of [main] *)







(** ** Loader: which files are read, and in which order *)

Lemma leb_cases (a b : string) :
  String.leb a b = true <-> a = b \/ String_as_OT.lt a b.
Proof.
  unfold String.leb.
  pose proof (String_as_OT.cmp_eq a b) as He.
  pose proof (String_as_OT.cmp_lt a b) as Hl.
  unfold String_as_OT.cmp in *.
  destruct (String.compare a b) eqn:E; split; intros H; auto.
  - left. now apply He.
  - right. now apply Hl.
  - discriminate.
  - destruct H as [H|H]; [apply He in H | apply Hl in H]; discriminate.
Qed.

Lemma name_le_trans (a b c : string) : name_le a b -> name_le b c -> name_le a c.
Proof.
  unfold name_le. rewrite !leb_cases.
  intros [->|H1] [->|H2]; auto.
  right. eapply String_as_OT.lt_trans; eauto.
Qed.

Lemma insert_sorted_perm (x : string) (l : list string) :
  Permutation (insert_sorted x l) (x :: l).
Proof.
  induction l as [|y rest IH]; cbn [insert_sorted]; [reflexivity|].
  destruct (String.leb x y); [reflexivity|].
  rewrite IH. apply perm_swap.
Qed.

Lemma sorted_perm (l : list string) : Permutation (sorted l) l.
Proof.
  induction l as [|x rest IH]; cbn [sorted fold_right]; [reflexivity|].
  fold (sorted rest). rewrite insert_sorted_perm. now constructor.
Qed.

Lemma insert_sorted_sorted (x : string) (l : list string) :
  StronglySorted name_le l -> StronglySorted name_le (insert_sorted x l).
Proof.
  induction 1 as [|y rest Hs IH Hf]; cbn [insert_sorted].
  - repeat constructor.
  - destruct (String.leb x y) eqn:E.
    + constructor; [now constructor|].
      constructor; [exact E|].
      rewrite Forall_forall in *. intros z Hz.
      eapply name_le_trans; [exact E | now apply Hf].
    + constructor; [exact IH|].
      rewrite Forall_forall in *. intros z Hz.
      apply (Permutation_in _ (insert_sorted_perm x rest)) in Hz.
      destruct Hz as [<-|Hz]; [|now apply Hf].
      destruct (String.leb_total x y) as [T|T]; [congruence | exact T].
Qed.

Lemma sorted_sorted (l : list string) : StronglySorted name_le (sorted l).
Proof.
  induction l as [|x rest IH]; cbn [sorted fold_right]; [constructor|].
  now apply insert_sorted_sorted.
Qed.

Lemma filter_sorted (p : string -> bool) (l : list string) :
  StronglySorted name_le l -> StronglySorted name_le (filter p l).
Proof.
  induction 1 as [|y rest Hs IH Hf]; cbn [filter]; [constructor|].
  destruct (p y); [|exact IH].
  constructor; [exact IH|].
  rewrite Forall_forall in *. intros z Hz. apply filter_In in Hz. now apply Hf.
Qed.

Lemma filter_perm {A : Type} (p : A -> bool) (l l' : list A) :
  Permutation l l' -> Permutation (filter p l) (filter p l').
Proof.
  induction 1 as [|x l l' H IH|x y l|l l' l'' H1 IH1 H2 IH2]; cbn [filter].
  - constructor.
  - destruct (p x); [now constructor | exact IH].
  - destruct (p x), (p y); try reflexivity. apply perm_swap.
  - now transitivity (filter p l').
Qed.

Lemma csv_files_spec (listing : list string) :
  StronglySorted name_le (csv_files listing)
  /\ Permutation (csv_files listing)
                 (filter (fun file => endswith file ".csv") listing).
Proof.
  unfold csv_files. split.
  - apply filter_sorted, sorted_sorted.
  - apply filter_perm, sorted_perm.
Qed.

Section LoaderFacts.

Context {E F : Type} (listdir : string -> E + list string)
        (read_csv : string -> E + F).

Lemma read_all_inr (paths : list string) (dfs : list F) :
  read_all read_csv paths = inr dfs <-> map read_csv paths = map inr dfs.
Proof.
  revert dfs. induction paths as [|p rest IH]; intros dfs; cbn [read_all map].
  - split; intros H.
    + inversion H. reflexivity.
    + destruct dfs; [reflexivity | discriminate].
  - destruct (read_csv p) as [e|df].
    + split; [discriminate|]. intros H. destruct dfs; discriminate.
    + destruct (read_all read_csv rest) as [e|dfs'] eqn:Er.
      * split; [discriminate|]. intros H. destruct dfs as [|d dfs]; [discriminate|].
        cbn [map] in H. inversion H as [[Hd Hr]]. apply IH in Hr. discriminate.
      * split; intros H.
        -- inversion H; subst. cbn [map]. f_equal. now apply IH.
        -- destruct dfs as [|d dfs]; [discriminate|].
           cbn [map] in H. inversion H as [[Hd Hr]]. apply IH in Hr.
           congruence.
Qed.

(** The reading stops at the first path whose read raises, and fails
    with what that read raised. *)
Lemma read_all_inl (paths : list string) (x : load_exn E) :
  read_all read_csv paths = inl x <->
  exists before p after dfs e,
    paths = (before ++ p :: after)%list
    /\ map read_csv before = map inr dfs
    /\ read_csv p = inl e
    /\ x = ReadRaised e.
Proof.
  revert x. induction paths as [|p rest IH]; intros x; cbn [read_all].
  - split; [discriminate|].
    intros (before & q & after & dfs & e & H & _). destruct before; discriminate.
  - destruct (read_csv p) as [e|df] eqn:Ep.
    + split.
      * intros H. inversion H; subst.
        exists [], p, rest, [], e. repeat split; assumption.
      * intros (before & q & after & dfs & e' & H & Hb & Hq & ->).
        destruct before as [|b before]; cbn [app] in H; inversion H; subst.
        -- congruence.
        -- destruct dfs; cbn [map] in Hb; [discriminate|].
           inversion Hb. congruence.
    + destruct (read_all read_csv rest) as [y|dfs'] eqn:Er.
      * split.
        -- intros H. inversion H; subst.
           destruct (proj1 (IH x) eq_refl)
             as (before & q & after & dfs & e & -> & Hb & Hq & ->).
           exists (p :: before), q, after, (df :: dfs), e.
           repeat split; try assumption. cbn [map]. now rewrite Ep, Hb.
        -- intros (before & q & after & dfs & e & H & Hb & Hq & ->).
           destruct before as [|b before]; cbn [app] in H; inversion H; subst;
             [congruence|].
           destruct dfs as [|d dfs]; cbn [map] in Hb; [discriminate|].
           inversion Hb as [[Hd Hb']].
           f_equal. assert (inl y = inl (ReadRaised e) :> load_exn E + list F) as C.
           { apply IH. exists before, q, after, dfs, e. repeat split; assumption. }
           now inversion C.
      * split; [discriminate|].
        intros (before & q & after & dfs & e & H & Hb & Hq & ->).
        destruct before as [|b before]; cbn [app] in H; inversion H; subst;
          [congruence|].
        destruct dfs as [|d dfs]; cbn [map] in Hb; [discriminate|].
        inversion Hb as [[Hd Hb']].
        assert (inr dfs' = inl (ReadRaised e) :> load_exn E + list F) as C.
        { apply IH. exists before, q, after, dfs, e. repeat split; assumption. }
        discriminate C.
Qed.

(** X21: when load_csv_files returns, it returns at least one frame,
    and the frames are those of the files of the directory whose name
    ends in ".csv", each read once from the directory joined with its
    name, in ascending order of the names. *)
Theorem load_csv_files_frames (directory : string) (dataframes : list F) :
  load_csv_files listdir read_csv directory = inr dataframes ->
  exists listing names,
    listdir directory = inr listing
    /\ Permutation names (filter (fun file => endswith file ".csv") listing)
    /\ StronglySorted name_le names
    /\ map read_csv (map (path_join directory) names) = map inr dataframes
    /\ dataframes <> [].
Proof.
  unfold load_csv_files. destruct (listdir directory) as [e|listing]; [discriminate|].
  destruct (read_all read_csv (map (path_join directory) (csv_files listing)))
    as [e|dfs] eqn:Er; [discriminate|].
  destruct dfs as [|df dfs]; [discriminate|].
  intros H. inversion H; subst.
  exists listing, (csv_files listing).
  destruct (csv_files_spec listing) as [Hs Hp].
  repeat split; try assumption; [now apply read_all_inr | discriminate].
Qed.

(** X22: load_csv_files fails in three ways only.  It fails with what
    os.listdir raised exactly when the listing of the directory
    raises, as it does with FileNotFoundError for a directory that
    does not exist; with the complaint that no CSV file was found
    exactly when the directory is listed and holds no name ending in
    ".csv"; and with what pd.read_csv raised exactly when, in
    ascending order of the names ending in ".csv", the files before
    that one were read and the read of that one raised it. *)
Theorem load_csv_files_errors (directory : string) :
  (forall e, load_csv_files listdir read_csv directory = inl (ListingRaised e)
             <-> listdir directory = inl e)
  /\ (load_csv_files listdir read_csv directory = inl NoCsvFile
      <-> exists listing,
            listdir directory = inr listing
            /\ forall file, In file listing -> endswith file ".csv" = false)
  /\ (forall e, load_csv_files listdir read_csv directory = inl (ReadRaised e)
                <-> exists listing before file after dfs,
                      listdir directory = inr listing
                      /\ csv_files listing = (before ++ file :: after)%list
                      /\ map read_csv (map (path_join directory) before)
                         = map inr dfs
                      /\ read_csv (path_join directory file) = inl e).
Proof.
  unfold load_csv_files.
  destruct (listdir directory) as [e0|listing].
  { split; [|split].
    - intros e. split; intros H; inversion H; reflexivity.
    - split; [discriminate|]. intros (l & H & _). discriminate.
    - intros e. split; [discriminate|].
      intros (l & b & f & a & d & H & _). discriminate. }
  destruct (csv_files_spec listing) as [_ Hp].
  assert (forall x,
             read_all read_csv (map (path_join directory) (csv_files listing)) = inl x ->
             exists before file after dfs e,
               csv_files listing = (before ++ file :: after)%list
               /\ map read_csv (map (path_join directory) before) = map inr dfs
               /\ read_csv (path_join directory file) = inl e
               /\ x = ReadRaised e) as Failed.
  { intros x Hx. apply read_all_inl in Hx.
    destruct Hx as (pb & p & pa & dfs & e & Hpaths & Hb & Hq & ->).
    apply map_eq_app in Hpaths.
    destruct Hpaths as (before & tail & Hc & <- & Ht).
    destruct tail as [|file after]; [discriminate|].
    cbn [map] in Ht. inversion Ht; subst.
    exists before, file, after, dfs, e. repeat split; assumption. }
  assert (forall file, In file (csv_files listing) ->
                       In file listing /\ endswith file ".csv" = true) as Csv.
  { intros file Hf. apply (Permutation_in _ Hp) in Hf. now apply filter_In in Hf. }
  destruct (read_all read_csv (map (path_join directory) (csv_files listing)))
    as [x|dfs] eqn:Er.
  - destruct (Failed x eq_refl) as (before & file & after & dfs & e & Hc & Hb & Hq & ->).
    split; [|split].
    + intros e'. split; discriminate.
    + split; [discriminate|]. intros (l & Hl & Hno). inversion Hl; subst l.
      destruct (Csv file) as [Hf Hcsv]; [rewrite Hc; apply in_elt|].
      rewrite (Hno file Hf) in Hcsv. discriminate.
    + intros e'. split.
      * intros H. inversion H; subst e'.
        now exists listing, before, file, after, dfs.
      * intros (l & b' & f' & a' & d' & Hl & Hc' & Hb' & Hq').
        inversion Hl; subst l. f_equal.
        assert (inl (ReadRaised e) = inl (ReadRaised e') :> load_exn E + list F) as C.
        { rewrite <- Er. apply read_all_inl.
          exists (map (path_join directory) b'), (path_join directory f'),
                 (map (path_join directory) a'), d', e'.
          repeat split; try assumption.
          rewrite Hc', map_app. reflexivity. }
        now inversion C.
  - apply read_all_inr in Er.
    assert (forall e, ~ exists l b f a d,
                 @inr E _ listing = inr l
                 /\ csv_files l = (b ++ f :: a)%list
                 /\ map read_csv (map (path_join directory) b) = map inr d
                 /\ read_csv (path_join directory f) = inl e) as NoRead.
    { intros e (l & b & f & a & d & Hl & Hc & _ & Hq). inversion Hl; subst l.
      rewrite Hc, !map_app in Er. cbn [map] in Er.
      apply (f_equal (fun l => nth_error l (List.length b))) in Er.
      rewrite nth_error_app2 in Er by (rewrite !length_map; lia).
      rewrite !length_map, Nat.sub_diag in Er. cbn [nth_error] in Er.
      rewrite Hq in Er.
      destruct (nth_error (map inr dfs) (List.length b)) as [y|] eqn:Ey;
        [|discriminate].
      apply nth_error_In in Ey. apply in_map_iff in Ey.
      destruct Ey as (z & <- & _). discriminate. }
    destruct dfs as [|df dfs].
    + split; [|split].
      * intros e. split; discriminate.
      * split; [|reflexivity].
        intros _. exists listing. split; [reflexivity|].
        intros file Hf. destruct (endswith file ".csv") eqn:Hcsv; [|reflexivity].
        exfalso.
        assert (In file (csv_files listing)) as Hin.
        { apply (Permutation_in _ (Permutation_sym Hp)). now apply filter_In. }
        revert Er. destruct (csv_files listing); [destruct Hin | discriminate].
      * intros e. split; [discriminate|]. intros H. exfalso. exact (NoRead e H).
    + split; [|split].
      * intros e. split; discriminate.
      * split; [discriminate|]. intros (l & Hl & Hno). inversion Hl; subst l.
        revert Er Csv. destruct (csv_files listing) as [|file rest];
          [discriminate|]. intros _ Csv.
        destruct (Csv file (in_eq _ _)) as [Hf Hcsv].
        rewrite (Hno file Hf) in Hcsv. discriminate.
      * intros e. split; [discriminate|]. intros H. exfalso. exact (NoRead e H).
Qed.

(** X23: the frame main works on, the first of the list, is the one
    read from the least name ending in ".csv" of the directory. *)
Theorem first_frame_least_name (directory : string) (df : F) (rest : list F) :
  load_csv_files listdir read_csv directory = inr (df :: rest) ->
  exists listing file,
    listdir directory = inr listing
    /\ In file listing /\ endswith file ".csv" = true
    /\ read_csv (path_join directory file) = inr df
    /\ forall other, In other listing -> endswith other ".csv" = true ->
                     name_le file other.
Proof.
  unfold load_csv_files. destruct (listdir directory) as [e|listing]; [discriminate|].
  destruct (read_all read_csv (map (path_join directory) (csv_files listing)))
    as [e|dfs] eqn:Er; [discriminate|].
  destruct dfs as [|d dfs]; [discriminate|].
  intros H. inversion H; subst. apply read_all_inr in Er.
  destruct (csv_files_spec listing) as [Hs Hp]. revert Er Hs Hp.
  destruct (csv_files listing) as [|file names]; [discriminate|].
  intros Er Hs Hp.
  cbn [map] in Er. inversion Er as [[Hd Hr]].
  assert (In file (filter (fun f => endswith f ".csv") listing)) as Hin
      by (apply (Permutation_in _ Hp), in_eq).
  apply filter_In in Hin. destruct Hin as [Hf Hc].
  exists listing, file. repeat split; try assumption.
  intros other Ho Hoc.
  assert (In other (file :: names)) as Hin'
      by (apply (Permutation_in _ (Permutation_sym Hp)); now apply filter_In).
  inversion Hs as [|? ? _ Hall]; subst.
  destruct Hin' as [<-|Hin'].
  - unfold name_le. destruct (String.leb_total file file); assumption.
  - rewrite Forall_forall in Hall. now apply Hall.
Qed.

End LoaderFacts.

Lemma load_csv_files_frames_witness :
  exists listing names,
    sample_listing "dataset" = inr listing
    /\ Permutation names (filter (fun file => endswith file ".csv") listing)
    /\ StronglySorted name_le names
    /\ map sample_read_csv (map (path_join "dataset") names)
       = map inr ["frame of dataset/a.csv"; "frame of dataset/b.csv"]
    /\ ["frame of dataset/a.csv"; "frame of dataset/b.csv"] <> [].
Proof.
  apply (load_csv_files_frames sample_listing sample_read_csv "dataset").
  vm_compute. reflexivity.
Defined.

Lemma load_csv_files_errors_witness :
  load_csv_files sample_listing sample_read_csv "missing"
  = inl (ListingRaised "FileNotFoundError").
Proof.
  apply (proj1 (load_csv_files_errors sample_listing sample_read_csv "missing")
           "FileNotFoundError").
  reflexivity.
Defined.

Lemma first_frame_least_name_witness :
  exists listing file,
    sample_listing "dataset" = inr listing
    /\ In file listing /\ endswith file ".csv" = true
    /\ sample_read_csv (path_join "dataset" file) = inr "frame of dataset/a.csv"
    /\ forall other, In other listing -> endswith other ".csv" = true ->
                     name_le file other.
Proof.
  apply (first_frame_least_name sample_listing sample_read_csv "dataset"
           "frame of dataset/a.csv" ["frame of dataset/b.csv"]).
  vm_compute. reflexivity.
Defined.

(** ** Date columns: names that collide *)

Section DateColumnCollision.

Context {RT : PyRuntime}.

Lemma count_column_names (col : string) (df df' : frame) :
  frame_columns df' = frame_columns df ->
  count_column col df' = count_column col df.
Proof.
  unfold count_column, frame_columns. revert df'.
  induction df as [|[n s] rest IH]; intros [|[n' s'] rest'] H; try discriminate;
    [reflexivity|].
  cbn [map fst] in H. inversion H as [[Hn Hr]]. cbn [filter fst].
  destruct (String.eqb n col); cbn [List.length]; now rewrite (IH rest' Hr).
Qed.

(** One step of the loop either refuses a name carried by several
    columns or returns a frame with the same names. *)
Lemma convert_date_column_cases (col : string) (df : frame) :
  (convert_date_column col df = Raise AttributeError
   /\ (1 < count_column col df)%nat)
  \/ (exists df', convert_date_column col df = Ok df'
                  /\ frame_columns df' = frame_columns df
                  /\ (count_column col df <= 1)%nat).
Proof.
  unfold convert_date_column.
  destruct (Nat.ltb_spec 1 (count_column col df)) as [Hc|Hc]; [now left|].
  right.
  cut (exists df',
          mapM (fun '(name, series) =>
                  if String.eqb name col
                  then converted <- mapM convert_date_cell series;;
                       Ok (name, converted)
                  else Ok (name, series)) df = Ok df'
          /\ frame_columns df' = frame_columns df).
  { intros (df' & E & H). exists df'. repeat split; assumption. }
  clear Hc.
  induction df as [|[name series] rest (df' & IH & HF)]; cbn [mapM].
  - now exists [].
  - rewrite IH. destruct (String.eqb name col).
    + destruct (mapM_returns convert_date_cell series) as [converted Hs].
      { intros a. destruct (convert_date_cell_returns a) as (v & Hv & _). eauto. }
      rewrite Hs. cbn [bind]. eexists. split; [reflexivity|].
      unfold frame_columns in *. cbn [map fst]. now rewrite HF.
    + cbn [bind]. eexists. split; [reflexivity|].
      unfold frame_columns in *. cbn [map fst]. now rewrite HF.
Qed.

Lemma convert_loop_raised (cols : list string) (e : exn) :
  fold_left (fun acc col => df <- acc;; convert_date_column col df) cols (Raise e)
  = Raise e.
Proof. induction cols as [|c rest IH]; [reflexivity | exact IH]. Qed.

Lemma convert_loop_collision (cols : list string) (col : string) (df : frame) :
  In col cols -> (1 < count_column col df)%nat ->
  fold_left (fun acc col => df <- acc;; convert_date_column col df) cols (Ok df)
  = Raise AttributeError.
Proof.
  revert df. induction cols as [|c rest IH]; intros df Hin Hc; [destruct Hin|].
  cbn [fold_left bind].
  destruct (convert_date_column_cases c df)
    as [[E _]|(df' & E & Hn & Hle)]; rewrite E.
  - apply convert_loop_raised.
  - destruct Hin as [->|Hin]; [lia|].
    apply IH; [exact Hin|]. now rewrite (count_column_names col df df' Hn).
Qed.

(** X24: when two columns of the frame carry the same name and the
    name holds "date", as happens when clean_column_names makes two
    headers collide, convert_date_columns raises AttributeError and
    returns no frame. *)
Theorem convert_date_columns_collision (df : frame) (col : string) :
  is_date_column col = true ->
  (1 < count_column col df)%nat ->
  convert_date_columns df = Raise AttributeError.
Proof.
  intros Hd Hc. unfold convert_date_columns.
  apply (convert_loop_collision _ col); [|exact Hc].
  unfold find_date_columns. apply filter_In. split; [|exact Hd].
  unfold count_column, frame_columns in *.
  destruct (filter (fun c => String.eqb (fst c) col) df) as [|c l] eqn:E;
    [cbn in Hc; lia|].
  assert (In c (filter (fun c => String.eqb (fst c) col) df)) as Hin
      by (rewrite E; apply in_eq).
  apply filter_In in Hin. destruct Hin as [Hin He].
  apply String.eqb_eq in He. rewrite <- He. now apply in_map.
Qed.

End DateColumnCollision.

Lemma convert_date_columns_collision_witness :
  convert_date_columns
    [ (normalize_name "Delivery-Date", [Str "2-Jun-06"]);
      (normalize_name "Delivery Date", [Str "6/2/06"]) ]
  = Raise AttributeError.
Proof.
  apply (convert_date_columns_collision _ "delivery_date"); [reflexivity|].
  vm_compute. lia.
Defined.

(** ** Persistence: the primary keys in the statement of [create_table] *)






(** The statement for the countries table, as text. *)
Example countries_statement :
  create_table_query "countries"
    [("country_name", "object"); ("country_id", "int64")] []
  = "CREATE TABLE IF NOT EXISTS " ++ quote_identifier "countries"
    ++ " (country_name TEXT, country_id BIGINT NOT NULL PRIMARY KEY)".
Proof. reflexivity. Qed.
